(** * ppt_to_json: slide deck to trivia-content document

    A shallow embedding of [ppt_to_json.py].  The script walks the slides
    of a deck in order, classifies each one as a section marker, the final
    slide or a clue slide, extracts title / body / notes text and the
    attached media, and assembles a round -> category -> clue document.

    Conventions of the embedding
    - Python [str] is [string], read as ASCII text: [strip], [upper]
      and [lower] are those of Python on text of the ASCII range, the
      range the embedding covers (characters above 127 are carried
      unchanged, where Python would map or trim some of them).
    - An attribute access or call that may raise is a [result]; the
      [try ... except Exception] blocks of the source are written as
      matches that turn [Raise] into the fallback value.
    - [OrderedDict] is an association list in insertion order.
    - The deck container (a zip archive) is the list of its members; the
      XML parser and the python-pptx object model are inputs.  The
      parser is a total function: a manifest that does not parse is
      outside the embedding.
    - Files written are recorded in the order of the writes; creating
      the asset folders and writing a file are taken to succeed. *)

From Stdlib Require Import String Ascii List Bool Arith Lia ZArith.
From Stdlib Require Import DecimalString DecimalNat Strings.Byte.
Import ListNotations.
Open Scope string_scope.
Open Scope nat_scope.
Open Scope list_scope.

Set Implicit Arguments.

(** ** Python string primitives used by the script *)

Module PyStr.

(** [str.isspace] on ASCII text: TAB..CR, FS..US and SPACE. *)
Definition is_space (c : ascii) : bool :=
  let n := nat_of_ascii c in
  ((9 <=? n) && (n <=? 13)) || ((28 <=? n) && (n <=? 32)).

Fixpoint lstrip (s : string) : string :=
  match s with
  | EmptyString => EmptyString
  | String c r => if is_space c then lstrip r else s
  end.

Fixpoint rstrip (s : string) : string :=
  match s with
  | EmptyString => EmptyString
  | String c r =>
      match rstrip r with
      | EmptyString => if is_space c then EmptyString else String c EmptyString
      | r' => String c r'
      end
  end.

(** [s.strip()] on ASCII text *)
Definition strip (s : string) : string := rstrip (lstrip s).

Definition upper_char (c : ascii) : ascii :=
  let n := nat_of_ascii c in
  if (97 <=? n) && (n <=? 122) then ascii_of_nat (n - 32) else c.

Definition lower_char (c : ascii) : ascii :=
  let n := nat_of_ascii c in
  if (65 <=? n) && (n <=? 90) then ascii_of_nat (n + 32) else c.

Fixpoint map_chars (f : ascii -> ascii) (s : string) : string :=
  match s with
  | EmptyString => EmptyString
  | String c r => String (f c) (map_chars f r)
  end.

(** [s.upper()] and [s.lower()] on ASCII text *)
Definition upper : string -> string := map_chars upper_char.
Definition lower : string -> string := map_chars lower_char.

(** [s.startswith(p)] *)
Definition startswith (s p : string) : bool := String.prefix p s.

(** [needle in s] *)
Fixpoint contains (needle s : string) : bool :=
  String.prefix needle s ||
  match s with
  | EmptyString => false
  | String _ r => contains needle r
  end.

(** [s.endswith(p)] *)
Fixpoint endswith (s p : string) : bool :=
  String.eqb s p ||
  match s with
  | EmptyString => false
  | String _ r => endswith r p
  end.

(** [s.replace("\\", "/")] *)
Definition replace_backslash : string -> string :=
  map_chars (fun c => if Ascii.eqb c "\"%char then "/"%char else c).

(** [s.replace("..", "")]: occurrences are found left to right and do
    not overlap. *)
Fixpoint remove_dotdot (s : string) : string :=
  match s with
  | EmptyString => EmptyString
  | String c r =>
      match r with
      | String d r' =>
          if Ascii.eqb c "."%char && Ascii.eqb d "."%char
          then remove_dotdot r'
          else String c (remove_dotdot r)
      | EmptyString => String c EmptyString
      end
  end.

(** [s.lstrip("/")] *)
Fixpoint lstrip_slash (s : string) : string :=
  match s with
  | EmptyString => EmptyString
  | String c r => if Ascii.eqb c "/"%char then lstrip_slash r else s
  end.

(** [sep.join(parts)] with [sep = "\n"] *)
Definition newline : string := String (ascii_of_nat 10) EmptyString.

Fixpoint join_lines (parts : list string) : string :=
  match parts with
  | [] => EmptyString
  | [p] => p
  | p :: rest => (p ++ newline ++ join_lines rest)%string
  end.

(** Python truthiness of a string: [if s:] *)
Definition truthy (s : string) : bool :=
  match s with EmptyString => false | _ => true end.

(** [f"{n:0Wd}"] for a non-negative [n]: decimal digits, zero-padded on
    the left to at least [w] characters. *)
Fixpoint zeros (k : nat) : string :=
  match k with O => EmptyString | S k' => String "0"%char (zeros k') end.

Definition decimal (n : nat) : string := NilZero.string_of_uint (Nat.to_uint n).

Definition zero_padded (w n : nat) : string :=
  let d := decimal n in (zeros (w - String.length d) ++ d)%string.

End PyStr.

(** ** [os.path] helpers (POSIX flavour) *)

Module OsPath.

(** The part of [s] after its last slash; [cur] is the candidate so far. *)
Fixpoint after_last_slash (s cur : string) : string :=
  match s with
  | EmptyString => cur
  | String c r =>
      if Ascii.eqb c "/"%char then after_last_slash r r
      else after_last_slash r cur
  end.

(** [os.path.basename(p)] *)
Definition basename (p : string) : string := after_last_slash p p.

(** Extension scan over a file name: [seen] records whether a character
    other than a dot has been met, [cur] is the suffix starting at the
    last dot that follows such a character. *)
Fixpoint ext_scan (s : string) (seen : bool) (cur : string) : string :=
  match s with
  | EmptyString => cur
  | String c r =>
      if Ascii.eqb c "."%char
      then ext_scan r seen (if seen then s else EmptyString)
      else ext_scan r true cur
  end.

(** Second component of [os.path.splitext(p)]: the suffix of the base
    name from its last dot, leading dots of the base name not counting. *)
Definition splitext_ext (p : string) : string :=
  ext_scan (basename p) false EmptyString.

(** [os.path.join(a, b)] *)
Definition join (a b : string) : string :=
  if PyStr.startswith b "/" then b
  else if PyStr.truthy a && negb (PyStr.endswith a "/") then (a ++ "/" ++ b)%string
  else (a ++ b)%string.

End OsPath.

(** ** Results of operations that may raise *)

Inductive result (A : Type) : Type :=
| Ok (a : A)
| Raise.

Arguments Raise {A}.

Definition bind {A B : Type} (r : result A) (k : A -> result B) : result B :=
  match r with
  | Ok a => k a
  | Raise => Raise
  end.

Notation "x <- r ;; k" := (bind r (fun x => k))
  (at level 61, r at next level, right associativity).

(** [try: r  except Exception: fallback] *)
Definition try_except {A : Type} (r : result A) (fallback : A) : A :=
  match r with
  | Ok a => a
  | Raise => fallback
  end.

(** Reading attribute [a] of an object that may lack it
    ([AttributeError] when absent). *)
Definition attr {A : Type} (a : option A) : result A :=
  match a with
  | Some v => Ok v
  | None => Raise
  end.

(** ** The deck as the script sees it *)

(** [shape.image]: extension and bytes of an embedded picture.
    [img_ext] is the result of reading [img.ext], which python-pptx
    raises on for an image format it does not know; [Ok None] stands
    for [None]. *)
Record Image := {
  img_ext : result (option string);
  img_blob : list byte
}.

(** A shape of a slide.  [element] is the identity that [==] compares;
    [has_text_frame] is [None] when the object has no such attribute;
    [text_frame_text] is the result of evaluating
    [shape.text_frame.text], which may raise and may be [None].
    [shape_type] and [image] are the results of reading these
    attributes: [Ok None] when the object has no such attribute (the
    [AttributeError] that [getattr] with a default and [hasattr]
    absorb), [Raise] when the read raises anything else, as python-pptx
    does for a shape of unrecognised type and for a linked picture. *)
Record Shape := {
  element : nat;
  has_text_frame : option bool;
  text_frame_text : result (option string);
  shape_type : result (option Z);
  image : result (option Image)
}.

(** A slide: [shapes_title] is the result of [slide.shapes.title],
    [shapes] the traversal of [slide.shapes], [notes_text] the result of
    [slide.notes_slide.notes_text_frame.text]. *)
Record Slide := {
  shapes_title : result (option Shape);
  shapes : list Shape;
  notes_text : result (option string)
}.

(** An element of a parsed relationship manifest. *)
Record Element := {
  tag : string;
  attrib : list (string * string)
}.

(** The input file: the slide sequence python-pptx presents, and the
    members of the same file opened as a zip archive. *)
Record Pptx := {
  prs_slides : list Slide;
  members : list (string * list byte)
}.

(** ** Slide field extractors *)

(** [shape == other] *)
Definition shape_eq (a b : Shape) : bool := element a =? element b.

(** [t.strip()] on a value that may be [None] *)
Definition strip_method (t : option string) : result string :=
  s <- attr t ;; Ok (PyStr.strip s).

Definition get_slide_title (slide : Slide) : string :=
  try_except
    (t <- shapes_title slide ;;
     match t with
     | None => Ok ""
     | Some sh =>
         h <- attr (has_text_frame sh) ;;
         if h then (txt <- text_frame_text sh ;; strip_method txt)
         else Ok ""
     end)
    "".

(** The loop of [get_body_text]; [parts] is the list built so far. *)
Fixpoint body_parts (title_shape : option Shape) (shs : list Shape)
    (parts : list string) : result (list string) :=
  match shs with
  | [] => Ok parts
  | shape :: rest =>
      if negb (match has_text_frame shape with Some b => b | None => false end)
      then body_parts title_shape rest parts
      else if match title_shape with
              | Some t => shape_eq shape t
              | None => false
              end
      then body_parts title_shape rest parts
      else
        txt <- text_frame_text shape ;;
        let text := PyStr.strip (match txt with Some s => s | None => "" end) in
        if PyStr.truthy text
        then body_parts title_shape rest (parts ++ [text])
        else body_parts title_shape rest parts
  end.

Definition get_body_text (slide : Slide) : result string :=
  let title_shape := try_except (shapes_title slide) None in
  parts <- body_parts title_shape (shapes slide) [] ;;
  Ok (PyStr.strip (PyStr.join_lines parts)).

Definition get_notes_text (slide : Slide) : string :=
  try_except
    (notes <- notes_text slide ;;
     Ok (PyStr.strip (match notes with Some s => s | None => "" end)))
    "".

(** ** Media resolver *)

(** A file written by [open(path, "wb").write(data)]. *)
Definition FileWrite : Type := (string * list byte)%type.

(** The loop of [extract_images_from_slide]; returns the names collected
    and the files written, in order, unless reading the type of a
    shape, or the image of a shape of type 13 or its extension,
    raises. *)
Fixpoint images_loop (images_dir : string) (slide_idx_1based : nat)
    (shs : list Shape) (img_num : nat) (extracted : list string)
    (written : list FileWrite) : result (list string * list FileWrite) :=
  match shs with
  | [] => Ok (extracted, written)
  | shape :: rest =>
      t <- shape_type shape ;;
      match t with
      | Some 13%Z =>
          i <- image shape ;;
          match i with
          | Some img =>
              let img_num := img_num + 1 in
              e <- img_ext img ;;
              let ext := PyStr.lower
                           (match e with
                            | Some e => if PyStr.truthy e then e else "png"
                            | None => "png"
                            end) in
              let fname := ("slide" ++ PyStr.zero_padded 3 slide_idx_1based
                            ++ "_img" ++ PyStr.zero_padded 2 img_num
                            ++ "." ++ ext)%string in
              let out_path := OsPath.join images_dir fname in
              images_loop images_dir slide_idx_1based rest img_num
                (extracted ++ [fname]) (written ++ [(out_path, img_blob img)])
          | None => images_loop images_dir slide_idx_1based rest img_num
                      extracted written
          end
      | _ => images_loop images_dir slide_idx_1based rest img_num
               extracted written
      end
  end.

Definition extract_images_from_slide (slide : Slide) (images_dir : string)
    (slide_idx_1based : nat) : result (list string * list FileWrite) :=
  images_loop images_dir slide_idx_1based (shapes slide) 0 [] [].

Definition _rels_path_for_slide (slide_idx_1based : nat) : string :=
  ("ppt/slides/_rels/slide" ++ PyStr.decimal slide_idx_1based
   ++ ".xml.rels")%string.

Definition AUDIO_EXTS : list string := [".mp3"; ".m4a"; ".wav"; ".aac"; ".ogg"].

(** [x in xs] for strings *)
Definition str_in (x : string) (xs : list string) : bool :=
  existsb (String.eqb x) xs.

(** [z.namelist()] *)
Definition namelist (z : list (string * list byte)) : list string :=
  map fst z.

(** [z.read(name)]: the data of the member called [name], the last one
    when several members share the name; [None] stands for the
    [KeyError] of a name that is not in [namelist]. *)
Fixpoint zread (z : list (string * list byte)) (name : string)
    : option (list byte) :=
  match z with
  | [] => None
  | (n, data) :: rest =>
      match zread rest name with
      | Some d => Some d
      | None => if String.eqb name n then Some data else None
      end
  end.

(** [d.get(key, "")] on an attribute dictionary *)
Fixpoint attrib_get (d : list (string * string)) (key : string) : string :=
  match d with
  | [] => ""
  | (k, v) :: rest => if String.eqb key k then v else attrib_get rest key
  end.

(** [target] as rewritten by [_slide_audio_targets] before the
    extension test. *)
Definition normalize_target (target : string) : string :=
  let norm := PyStr.replace_backslash target in
  let norm := PyStr.lstrip_slash (PyStr.remove_dotdot norm) in
  if negb (PyStr.startswith norm "ppt/") then ("ppt/" ++ norm)%string
  else norm.

(** ** Ordered dictionary of categories *)

Module OrderedDict.
Section Dict.
Variable V : Type.

Definition t : Type := list (string * list V).

(** [k in d] *)
Definition mem (k : string) (d : t) : bool :=
  existsb (fun kv => String.eqb k (fst kv)) d.

(** [d[k] = []] for a key that [d] may or may not hold: the value of an
    existing key is replaced in place, a new key goes last. *)
Fixpoint set_empty (k : string) (d : t) : t :=
  match d with
  | [] => [(k, [])]
  | (k', l) :: rest =>
      if String.eqb k k' then (k', []) :: rest
      else (k', l) :: set_empty k rest
  end.

(** [d[k].append(x)]; Python raises [KeyError] when [k] is absent,
    which the only caller rules out by testing [k in d] first, so the
    absent case is left as the identity. *)
Fixpoint append_at (k : string) (x : V) (d : t) : t :=
  match d with
  | [] => []
  | (k', l) :: rest =>
      if String.eqb k k' then (k', l ++ [x]) :: rest
      else (k', l) :: append_at k x rest
  end.

(** [d[k]] read as a list, empty when [k] is absent *)
Fixpoint get (k : string) (d : t) : list V :=
  match d with
  | [] => []
  | (k', l) :: rest => if String.eqb k k' then l else get k rest
  end.

Definition keys (d : t) : list string := map fst d.
End Dict.
End OrderedDict.

(** ** The output document *)

Record MediaRef := { src : string }.

Record Clue := {
  question : string;
  answer : string;
  images : option (list MediaRef);
  audio : option (list MediaRef)
}.

Record Final := {
  fin_category : string;
  fin_question : string;
  fin_answer : string;
  fin_images : option (list MediaRef);
  fin_audio : option (list MediaRef)
}.

Record Category := {
  cat_name : string;
  clues : list Clue
}.

Record Round := {
  name : string;
  categories : list Category
}.

Record Document := {
  title : string;
  doc_rounds : list Round;
  final : option Final
}.

(** ** Command-line arguments *)

Record Args := {
  pptx : Pptx;
  out : string;
  assets : string;
  round1_title : string;
  round2_title : string;
  final_title : string
}.

Definition default_args (p : Pptx) : Args :=
  {| pptx := p; out := "game-data.json"; assets := "assets";
     round1_title := "ROUND 1"; round2_title := "ROUND 2";
     final_title := "FINAL JEOPARDY" |}.

(** ** The state of the loop in [main] *)

Inductive RoundKey := round1 | round2.

Record State := {
  current_round : option RoundKey;
  rounds_round1 : OrderedDict.t Clue;
  rounds_round2 : OrderedDict.t Clue;
  st_final : option Final;
  files : list FileWrite
}.

(** [rounds[k]] *)
Definition rounds (st : State) (k : RoundKey) : OrderedDict.t Clue :=
  match k with
  | round1 => rounds_round1 st
  | round2 => rounds_round2 st
  end.

Definition set_rounds (st : State) (k : RoundKey) (d : OrderedDict.t Clue)
    : State :=
  match k with
  | round1 => {| current_round := current_round st; rounds_round1 := d;
                 rounds_round2 := rounds_round2 st; st_final := st_final st;
                 files := files st |}
  | round2 => {| current_round := current_round st;
                 rounds_round1 := rounds_round1 st; rounds_round2 := d;
                 st_final := st_final st; files := files st |}
  end.

Definition set_current_round (st : State) (r : option RoundKey) : State :=
  {| current_round := r; rounds_round1 := rounds_round1 st;
     rounds_round2 := rounds_round2 st; st_final := st_final st;
     files := files st |}.

Definition add_files (st : State) (w : list FileWrite) : State :=
  {| current_round := current_round st; rounds_round1 := rounds_round1 st;
     rounds_round2 := rounds_round2 st; st_final := st_final st;
     files := files st ++ w |}.

Definition initial_state : State :=
  {| current_round := None; rounds_round1 := []; rounds_round2 := [];
     st_final := None; files := [] |}.

(** [[{"src": f"{assets_root}/<kind>/{n}"} for n in names]] when [names]
    is non-empty; the key is not set otherwise. *)
Definition media_key (assets_root kind : string) (names : list string)
    : option (list MediaRef) :=
  match names with
  | [] => None
  | _ => Some (map (fun n => {| src := (assets_root ++ "/" ++ kind ++ "/" ++ n)%string |})
                   names)
  end.

(** ** Audio resolution and the main loop

    [fromstring] is [xml.etree.ElementTree.fromstring], read as the list
    of children of the root element of a well-formed manifest. *)

Section Pipeline.
Variable fromstring : list byte -> list Element.

(** The loop of [_slide_audio_targets] over the children of the root. *)
Fixpoint targets_loop (root : list Element) (targets : list string)
    : list string :=
  match root with
  | [] => targets
  | rel :: rest =>
      if negb (PyStr.endswith (PyStr.lower (tag rel)) "relationship")
      then targets_loop rest targets
      else
        let target := attrib_get (attrib rel) "Target" in
        if negb (PyStr.contains "media/" target)
        then targets_loop rest targets
        else
          let norm := normalize_target target in
          let ext := OsPath.splitext_ext (PyStr.lower norm) in
          if str_in ext AUDIO_EXTS
          then targets_loop rest (targets ++ [norm])
          else targets_loop rest targets
  end.

(** The test [rels_path not in z.namelist()] and the read that follows
    it are one lookup here. *)
Definition _slide_audio_targets (pptx_path : Pptx) (slide_idx_1based : nat)
    : list string :=
  let rels_path := _rels_path_for_slide slide_idx_1based in
  match zread (members pptx_path) rels_path with
  | None => []
  | Some xml_bytes => targets_loop (fromstring xml_bytes) []
  end.

(** The loop of [extract_audio_from_slide]; the test
    [t not in z.namelist()] and the read are one lookup. *)
Fixpoint audio_loop (z : list (string * list byte)) (audio_dir : string)
    (slide_idx_1based : nat) (targets : list string) (saved : list string)
    (written : list FileWrite) : list string * list FileWrite :=
  match targets with
  | [] => (saved, written)
  | t :: rest =>
      match zread z t with
      | None => audio_loop z audio_dir slide_idx_1based rest saved written
      | Some data =>
          let base := OsPath.basename t in
          let out_name := ("slide" ++ PyStr.zero_padded 3 slide_idx_1based
                           ++ "_" ++ base)%string in
          let out_path := OsPath.join audio_dir out_name in
          audio_loop z audio_dir slide_idx_1based rest
            (saved ++ [out_name]) (written ++ [(out_path, data)])
      end
  end.

Definition extract_audio_from_slide (pptx_path : Pptx) (audio_dir : string)
    (slide_idx_1based : nat) : list string * list FileWrite :=
  let targets := _slide_audio_targets pptx_path slide_idx_1based in
  match targets with
  | [] => ([], [])
  | _ => audio_loop (members pptx_path) audio_dir slide_idx_1based
           targets [] []
  end.

Variable args : Args.

Definition pptx_path : Pptx := pptx args.
Definition assets_root : string := assets args.
Definition images_dir : string := OsPath.join assets_root "images".
Definition audio_dir : string := OsPath.join assets_root "audio".

Definition r1_key : string := PyStr.upper (PyStr.strip (round1_title args)).
Definition r2_key : string := PyStr.upper (PyStr.strip (round2_title args)).
Definition f_key : string := PyStr.upper (PyStr.strip (final_title args)).

(** One iteration of [for idx, slide in enumerate(prs.slides, start=1)]. *)
Definition step (st : State) (idx : nat) (slide : Slide) : result State :=
  let title := PyStr.strip (get_slide_title slide) in
  let upper := PyStr.upper title in
  if String.eqb upper r1_key then Ok (set_current_round st (Some round1))
  else if String.eqb upper r2_key then Ok (set_current_round st (Some round2))
  else if String.eqb upper f_key then
    q <- get_body_text slide ;;
    let a := get_notes_text slide in
    extracted <- extract_images_from_slide slide images_dir idx ;;
    let '(imgs, wi) := extracted in
    let '(auds, wa) := extract_audio_from_slide pptx_path audio_dir idx in
    let final := {| fin_category := final_title args;
                    fin_question := q;
                    fin_answer := a;
                    fin_images := media_key assets_root "images" imgs;
                    fin_audio := media_key assets_root "audio" auds |} in
    Ok {| current_round := None;
          rounds_round1 := rounds_round1 st;
          rounds_round2 := rounds_round2 st;
          st_final := Some final;
          files := files st ++ wi ++ wa |}
  else
    match current_round st with
    | None => Ok st
    | Some cr =>
        let category := title in
        question <- get_body_text slide ;;
        let answer := get_notes_text slide in
        if negb (PyStr.truthy category) || negb (PyStr.truthy question)
           || negb (PyStr.truthy answer)
        then Ok st
        else
          extracted <- extract_images_from_slide slide images_dir idx ;;
          let '(imgs, wi) := extracted in
          let '(auds, wa) := extract_audio_from_slide pptx_path audio_dir idx in
          let clue := {| question := question;
                         answer := answer;
                         images := media_key assets_root "images" imgs;
                         audio := media_key assets_root "audio" auds |} in
          let d := rounds st cr in
          let d := if negb (OrderedDict.mem category d)
                   then OrderedDict.set_empty category d else d in
          let d := OrderedDict.append_at category clue d in
          Ok (add_files (set_rounds st cr d) (wi ++ wa))
    end.

(** The loop over the slides, [idx] being the ordinal of the first. *)
Fixpoint loop (slides : list Slide) (idx : nat) (st : State)
    : result State :=
  match slides with
  | [] => Ok st
  | slide :: rest => st' <- step st idx slide ;; loop rest (S idx) st'
  end.

(** [[{"name": cat, "clues": clues} for cat, clues in d.items()]] *)
Definition categories_of (d : OrderedDict.t Clue) : list Category :=
  map (fun kv => {| cat_name := fst kv; clues := snd kv |}) d.

(** The dictionary [data] built after the loop. *)
Definition build_document (st : State) : Document :=
  {| title := "Jeopardy Content";
     doc_rounds :=
       [ {| name := "Round 1"; categories := categories_of (rounds st round1) |};
         {| name := "Round 2"; categories := categories_of (rounds st round2) |} ];
     final := st_final st |}.

(** [main]: the document handed to [json.dump] and the asset files
    written on the way; [Raise] when an exception escapes the loop. *)
Definition main : result (Document * list FileWrite) :=
  st <- loop (prs_slides pptx_path) 1 initial_state ;;
  Ok (build_document st, files st).

End Pipeline.

(** ** Vocabulary of the properties *)

(** The four cases the if-chain of the loop distinguishes, tested in
    this order. *)
Inductive SlideKind := Round1Marker | Round2Marker | FinalMarker | Content.

Definition classify (args : Args) (slide : Slide) : SlideKind :=
  let upper := PyStr.upper (PyStr.strip (get_slide_title slide)) in
  if String.eqb upper (r1_key args) then Round1Marker
  else if String.eqb upper (r2_key args) then Round2Marker
  else if String.eqb upper (f_key args) then FinalMarker
  else Content.

(** The slide's title equals none of the three marker keys. *)
Definition matches_no_marker (args : Args) (slide : Slide) : Prop :=
  let upper := PyStr.upper (PyStr.strip (get_slide_title slide)) in
  upper <> r1_key args /\ upper <> r2_key args /\ upper <> f_key args.

(** A shape that [extract_images_from_slide] takes for a picture. *)
Definition picture_shape (sh : Shape) : bool :=
  match shape_type sh, image sh with
  | Ok (Some 13%Z), Ok (Some _) => true
  | _, _ => false
  end.

(** [extract_images_from_slide] goes through on the shape: reading its
    type does not raise, nor, when the type is 13, reading its image
    and the extension of the image. *)
Definition picture_test_ok (sh : Shape) : bool :=
  match shape_type sh with
  | Raise => false
  | Ok (Some 13%Z) =>
      match image sh with
      | Raise => false
      | Ok None => true
      | Ok (Some img) =>
          match img_ext img with Raise => false | Ok _ => true end
      end
  | Ok _ => true
  end.

(** The pictures of the slide can be extracted. *)
Definition pictures_ok (slide : Slide) : bool :=
  forallb picture_test_ok (shapes slide).

(** What [extract_images_from_slide] returns, nothing when it raises. *)
Definition extracted_images (slide : Slide) (images_dir : string)
    (idx : nat) : list string * list FileWrite :=
  try_except (extract_images_from_slide slide images_dir idx) ([], []).

(** A candidate path that is a member of the archive. *)
Definition in_archive (p : Pptx) (t : string) : bool :=
  str_in t (namelist (members p)).

(** The body of the slide could be read. *)
Definition body_ok (slide : Slide) : bool :=
  match get_body_text slide with
  | Ok _ => true
  | Raise => false
  end.

(** The clue record a content slide with body [q] gives rise to. *)
Definition clue_for (fromstring : list byte -> list Element) (args : Args)
    (idx : nat) (slide : Slide) (q : string) : Clue :=
  {| question := q;
     answer := get_notes_text slide;
     images := media_key (assets_root args) "images"
                 (fst (extracted_images slide (images_dir args) idx));
     audio := media_key (assets_root args) "audio"
                (fst (extract_audio_from_slide fromstring (pptx_path args)
                        (audio_dir args) idx)) |}.

(** The record a final slide with body [q] gives rise to. *)
Definition final_for (fromstring : list byte -> list Element) (args : Args)
    (idx : nat) (slide : Slide) (q : string) : Final :=
  {| fin_category := final_title args;
     fin_question := q;
     fin_answer := get_notes_text slide;
     fin_images := media_key (assets_root args) "images"
                     (fst (extracted_images slide (images_dir args) idx));
     fin_audio := media_key (assets_root args) "audio"
                    (fst (extract_audio_from_slide fromstring (pptx_path args)
                            (audio_dir args) idx)) |}.

(** Files written while the media of a slide are extracted. *)
Definition media_files (fromstring : list byte -> list Element) (args : Args)
    (idx : nat) (slide : Slide) : list FileWrite :=
  snd (extracted_images slide (images_dir args) idx)
  ++ snd (extract_audio_from_slide fromstring (pptx_path args)
            (audio_dir args) idx).

(** Appending a clue under a category: the category is created last in
    the dictionary on first sight. *)
Definition add_clue (category : string) (clue : Clue)
    (d : OrderedDict.t Clue) : OrderedDict.t Clue :=
  OrderedDict.append_at category clue
    (if negb (OrderedDict.mem category d)
     then OrderedDict.set_empty category d else d).

(** Number of clues held by a round. *)
Definition clue_count (d : OrderedDict.t Clue) : nat :=
  length (concat (map snd d)).

(** ** The synthetic deck of the round-trip scenario *)

Definition title_placeholder (e : nat) (text : string) : Shape :=
  {| element := e; has_text_frame := Some true;
     text_frame_text := Ok (Some text);
     shape_type := Ok (Some 14%Z); image := Ok None |}.

Definition text_box (e : nat) (text : string) : Shape :=
  {| element := e; has_text_frame := Some true;
     text_frame_text := Ok (Some text);
     shape_type := Ok (Some 17%Z); image := Ok None |}.

Definition marker_slide (text : string) : Slide :=
  {| shapes_title := Ok (Some (title_placeholder 1 text));
     shapes := [title_placeholder 1 text];
     notes_text := Ok (Some "") |}.

Definition text_slide (ttl body notes : string) : Slide :=
  {| shapes_title := Ok (Some (title_placeholder 1 ttl));
     shapes := [title_placeholder 1 ttl; text_box 2 body];
     notes_text := Ok (Some notes) |}.

Definition synthetic_deck : Pptx :=
  {| prs_slides :=
       [ marker_slide "ROUND 1";
         text_slide "Science" "Water's chemical formula?" "H2O";
         marker_slide "ROUND 2";
         text_slide "FINAL JEOPARDY" "Capital of France" "Paris" ];
     members := [] |}.

Definition synthetic_document : Document :=
  {| title := "Jeopardy Content";
     doc_rounds :=
       [ {| name := "Round 1";
            categories :=
              [ {| cat_name := "Science";
                   clues := [ {| question := "Water's chemical formula?";
                                 answer := "H2O";
                                 images := None; audio := None |} ] |} ] |};
         {| name := "Round 2"; categories := [] |} ];
     final := Some {| fin_category := "FINAL JEOPARDY";
                      fin_question := "Capital of France";
                      fin_answer := "Paris";
                      fin_images := None; fin_audio := None |} |}.

(** ** Encounter order, as the transition table describes it *)

Definition RoundKey_eqb (a b : RoundKey) : bool :=
  match a, b with
  | round1, round1 | round2, round2 => true
  | _, _ => false
  end.

(** Section in force after a slide met in section [cr]. *)
Definition next_section (args : Args) (cr : option RoundKey) (slide : Slide)
    : option RoundKey :=
  match classify args slide with
  | Round1Marker => Some round1
  | Round2Marker => Some round2
  | FinalMarker => None
  | Content => cr
  end.

(** The clue a slide met in section [cr] contributes: a content slide
    inside a round whose category, question and answer are all
    non-empty contributes one clue under its title; any other slide
    contributes nothing. *)
Definition contribution (fromstring : list byte -> list Element)
    (args : Args) (cr : option RoundKey) (idx : nat) (slide : Slide)
    : list (RoundKey * (string * Clue)) :=
  match classify args slide, cr, get_body_text slide with
  | Content, Some k, Ok q =>
      let category := PyStr.strip (get_slide_title slide) in
      if PyStr.truthy category && PyStr.truthy q
         && PyStr.truthy (get_notes_text slide)
      then [(k, (category, clue_for fromstring args idx slide q))]
      else []
  | _, _, _ => []
  end.

(** The clues of a slide sequence in encounter order, each with its
    round and category. *)
Fixpoint encountered (fromstring : list byte -> list Element) (args : Args)
    (slides : list Slide) (idx : nat) (cr : option RoundKey)
    : list (RoundKey * (string * Clue)) :=
  match slides with
  | [] => []
  | slide :: rest =>
      contribution fromstring args cr idx slide
      ++ encountered fromstring args rest (S idx) (next_section args cr slide)
  end.

(** The encountered clues of round [k]. *)
Definition in_round (k : RoundKey) (evs : list (RoundKey * (string * Clue)))
    : list (string * Clue) :=
  map snd (filter (fun e => RoundKey_eqb (fst e) k) evs).

(** The clues encountered under the title [c], in encounter order. *)
Definition clues_titled (c : string) (evs : list (string * Clue)) : list Clue :=
  map snd (filter (fun e => String.eqb c (fst e)) evs).

(** The titles of [l] in order of first occurrence, those in [seen]
    left out. *)
Fixpoint first_occurrences (seen l : list string) : list string :=
  match l with
  | [] => []
  | x :: rest =>
      if str_in x seen then first_occurrences seen rest
      else x :: first_occurrences (seen ++ [x]) rest
  end.

(** Replaying encountered clues into a dictionary. *)
Definition replay (evs : list (string * Clue)) (d : OrderedDict.t Clue)
    : OrderedDict.t Clue :=
  fold_left (fun d e => add_clue (fst e) (snd e) d) evs d.

(** ** Candidate paths of a manifest, as the resolver describes them *)

(** A manifest entry of relationship kind whose target names the media
    folder. *)
Definition media_relationship (rel : Element) : bool :=
  PyStr.endswith (PyStr.lower (tag rel)) "relationship"
  && PyStr.contains "media/" (attrib_get (attrib rel) "Target").

(** The extension of [path], lower-cased, is on the audio allowlist. *)
Definition audio_path (path : string) : bool :=
  str_in (OsPath.splitext_ext (PyStr.lower path)) AUDIO_EXTS.

(** The candidate an entry contributes, if any. *)
Definition candidate (rel : Element) : list string :=
  if media_relationship rel
  then let norm := normalize_target (attrib_get (attrib rel) "Target") in
       if audio_path norm then [norm] else []
  else [].

(** ** Further concrete inputs *)

(** A slide without title region, shapes or notes page. *)
Definition untitled_slide : Slide :=
  {| shapes_title := Ok None; shapes := []; notes_text := Raise |}.

(** A slide whose title lookup raises. *)
Definition broken_title_slide : Slide :=
  {| shapes_title := Raise; shapes := []; notes_text := Ok None |}.

(** A text-bearing shape whose text cannot be read. *)
Definition unreadable_shape (e : nat) : Shape :=
  {| element := e; has_text_frame := Some true; text_frame_text := Raise;
     shape_type := Ok (Some 17%Z); image := Ok None |}.

(** A slide with a readable title and an unreadable text box. *)
Definition unreadable_body_slide : Slide :=
  {| shapes_title := Ok (Some (title_placeholder 1 "Science"));
     shapes := [title_placeholder 1 "Science"; unreadable_shape 2];
     notes_text := Ok (Some "H2O") |}.

(** A picture shape. *)
Definition picture (e : nat) (ext : string) (blob : list byte) : Shape :=
  {| element := e; has_text_frame := Some false; text_frame_text := Raise;
     shape_type := Ok (Some 13%Z);
     image := Ok (Some {| img_ext := Ok (Some ext); img_blob := blob |}) |}.

(** A clue slide with one picture. *)
Definition picture_slide : Slide :=
  {| shapes_title := Ok (Some (title_placeholder 1 "Art"));
     shapes := [title_placeholder 1 "Art"; text_box 2 "Who painted this?";
                picture 3 "PNG" [x89; x50]];
     notes_text := Ok (Some "Monet") |}.

(** A deck whose second slide references one audio part. *)
Definition audio_deck : Pptx :=
  {| prs_slides := [marker_slide "ROUND 1"; picture_slide];
     members := [("ppt/slides/_rels/slide2.xml.rels", [x3c]);
                 ("ppt/media/media1.M4A", [x00; x01])] |}.

(** A manifest reader that finds one audio relationship, one image
    relationship and one non-relationship element. *)
Definition sample_manifest (xml : list byte) : list Element :=
  [ {| tag := "{http://schemas.openxmlformats.org/package/2006/relationships}Relationship";
       attrib := [("Id", "rId2"); ("Target", "../media/media1.M4A")] |};
    {| tag := "{http://schemas.openxmlformats.org/package/2006/relationships}Relationship";
       attrib := [("Id", "rId3"); ("Target", "../media/image1.png")] |};
    {| tag := "Comment"; attrib := [("Target", "../media/x.mp3")] |} ].

(** Arguments with empty round-1 and round-2 marker titles. *)
Definition empty_rounds_args : Args :=
  {| pptx := synthetic_deck; out := "game-data.json"; assets := "assets";
     round1_title := ""; round2_title := "  ";
     final_title := "FINAL JEOPARDY" |}.

(** Arguments with an empty round-2 marker title only. *)
Definition empty_round2_args : Args :=
  {| pptx := synthetic_deck; out := "game-data.json"; assets := "assets";
     round1_title := "ROUND 1"; round2_title := "";
     final_title := "FINAL JEOPARDY" |}.

(** A state inside round 1 holding one category. *)
Definition round1_state : State :=
  {| current_round := Some round1;
     rounds_round1 := [("Science", [ {| question := "Q"; answer := "A";
                                        images := None; audio := None |} ])];
     rounds_round2 := []; st_final := None; files := [] |}.


(** A deck with two final slides and a clue slide after the first. *)
Definition two_finals_deck : Pptx :=
  {| prs_slides :=
       [ marker_slide "ROUND 1";
         text_slide "FINAL JEOPARDY" "First question" "First answer";
         text_slide "Science" "Water's chemical formula?" "H2O";
         text_slide "final jeopardy" "Capital of France" "Paris" ];
     members := [] |}.

(** A deck whose clue slide holds the unreadable text box. *)
Definition unreadable_deck : Pptx :=
  {| prs_slides := [marker_slide "ROUND 1"; unreadable_body_slide];
     members := [] |}.

(** A slide whose title shape, the only shape, cannot be read. *)
Definition unreadable_title_slide : Slide :=
  {| shapes_title := Ok (Some (unreadable_shape 1));
     shapes := [unreadable_shape 1];
     notes_text := Raise |}.

(** The categories of an output round are those of the encountered
    clues [evs]: named in order of first encounter, one category per
    title, each holding the clues of its title in encounter order. *)
Definition in_encounter_order (cats : list Category)
    (evs : list (string * Clue)) : Prop :=
  map cat_name cats = first_occurrences [] (map fst evs)
  /\ NoDup (map cat_name cats)
  /\ forall cat, In cat cats -> clues cat = clues_titled (cat_name cat) evs.

(** A deck whose first round returns to a category already met. *)
Definition ordering_deck : Pptx :=
  {| prs_slides :=
       [ marker_slide "ROUND 1";
         text_slide "History" "First question" "First answer";
         text_slide "Art" "Second question" "Second answer";
         text_slide "History" "Third question" "Third answer" ];
     members := [] |}.

(** ** Vocabulary of the further properties *)

(** A shape whose text [get_body_text] reads: it has a text frame and is
    not the title shape. *)
Definition qualifying (title_shape : option Shape) (sh : Shape) : bool :=
  match has_text_frame sh with Some b => b | None => false end
  && negb match title_shape with
          | Some t => shape_eq sh t
          | None => false
          end.

(** [shape.text_frame.text or ""] when the read does not raise. *)
Definition shape_text (sh : Shape) : string :=
  match text_frame_text sh with
  | Ok (Some s) => s
  | _ => ""
  end.

(** The trimmed, non-empty texts of the qualifying shapes, in
    traversal order. *)
Definition body_texts (title_shape : option Shape) (shs : list Shape)
    : list string :=
  filter PyStr.truthy
    (map (fun sh => PyStr.strip (shape_text sh))
       (filter (qualifying title_shape) shs)).

(** The number a string of decimal digits denotes. *)
Definition parse_decimal (s : string) : option nat :=
  option_map Nat.of_uint (NilEmpty.uint_of_string s).

Definition is_digit (c : ascii) : bool :=
  let n := nat_of_ascii c in (48 <=? n) && (n <=? 57).

Fixpoint all_digits (s : string) : bool :=
  match s with
  | EmptyString => true
  | String c r => is_digit c && all_digits r
  end.

(** The longest prefix of [s] made of decimal digits. *)
Fixpoint take_digits (s : string) : string :=
  match s with
  | EmptyString => EmptyString
  | String c r => if is_digit c then String c (take_digits r) else EmptyString
  end.

(** The images of the picture shapes of a shape list, in order. *)
Definition shape_images (shs : list Shape) : list Image :=
  flat_map (fun sh => match shape_type sh, image sh with
                      | Ok (Some 13%Z), Ok (Some img) => [img]
                      | _, _ => []
                      end) shs.

(** The file name given to the [n]-th picture of slide [idx]. *)
Definition image_name (idx n : nat) (img : Image) : string :=
  ("slide" ++ PyStr.zero_padded 3 idx ++ "_img" ++ PyStr.zero_padded 2 n
   ++ "." ++ PyStr.lower (match img_ext img with
                          | Ok (Some e) => if PyStr.truthy e then e else "png"
                          | _ => "png"
                          end))%string.

(** The file name given to the audio part [t] of slide [idx]. *)
Definition audio_name (idx : nat) (t : string) : string :=
  ("slide" ++ PyStr.zero_padded 3 idx ++ "_" ++ OsPath.basename t)%string.

(** The [src] strings a record carries under a media key. *)
Definition srcs (key : option (list MediaRef)) : list string :=
  match key with
  | Some refs => map src refs
  | None => []
  end.

(** A category of the output is well formed: it has a name and at least
    one clue, and each clue has a question and an answer. *)
Definition well_formed_category (cat : Category) : Prop :=
  cat_name cat <> "" /\ clues cat <> []
  /\ forall clue, In clue (clues cat) ->
       question clue <> "" /\ answer clue <> "".

(** A slide with two text boxes around a picture, the second box
    repeating the title text. *)
Definition two_box_slide : Slide :=
  {| shapes_title := Ok (Some (title_placeholder 1 "Art"));
     shapes := [title_placeholder 1 "Art"; text_box 2 "  Who painted  ";
                picture 3 "PNG" [x89; x50]; text_box 4 "   ";
                text_box 5 "Art"];
     notes_text := Ok (Some " Monet ") |}.

(** A deck without any round marker. *)
Definition unmarked_deck : Pptx :=
  {| prs_slides :=
       [ text_slide "Science" "Water's chemical formula?" "H2O";
         text_slide "Art" "Who painted this?" "Monet" ];
     members := [] |}.

(** Every entry of a round dictionary has a name, at least one clue,
    and clues with a question and an answer. *)
Definition well_formed_dict (d : OrderedDict.t Clue) : Prop :=
  forall c l, In (c, l) d ->
    c <> "" /\ l <> []
    /\ forall clue, In clue l -> question clue <> "" /\ answer clue <> "".

(** A marker slide whose text box cannot be read. *)
Definition unreadable_marker_slide : Slide :=
  {| shapes_title := Ok (Some (title_placeholder 1 "round 2"));
     shapes := [title_placeholder 1 "round 2"; unreadable_shape 2];
     notes_text := Raise |}.

(** A picture shape whose image is linked, not embedded: reading
    [shape.image] raises. *)
Definition linked_picture (e : nat) : Shape :=
  {| element := e; has_text_frame := Some false; text_frame_text := Raise;
     shape_type := Ok (Some 13%Z); image := Raise |}.

(** A shape of a type python-pptx does not recognise: reading
    [shape.shape_type] raises. *)
Definition unrecognised_shape (e : nat) : Shape :=
  {| element := e; has_text_frame := Some false; text_frame_text := Raise;
     shape_type := Raise; image := Ok None |}.

(** A clue slide, complete, holding a shape of unrecognised type. *)
Definition unrecognised_shape_slide : Slide :=
  {| shapes_title := Ok (Some (title_placeholder 1 "Art"));
     shapes := [title_placeholder 1 "Art"; text_box 2 "Who painted this?";
                unrecognised_shape 3];
     notes_text := Ok (Some "Monet") |}.

(** A clue slide, complete, holding a linked picture. *)
Definition linked_picture_slide : Slide :=
  {| shapes_title := Ok (Some (title_placeholder 1 "Art"));
     shapes := [title_placeholder 1 "Art"; text_box 2 "Who painted this?";
                linked_picture 3];
     notes_text := Ok (Some "Monet") |}.

Definition linked_picture_deck : Pptx :=
  {| prs_slides := [marker_slide "ROUND 1"; linked_picture_slide];
     members := [] |}.



(** A slide with three pictures: an upper-case extension, no
    extension, and an empty extension, after a shape without image. *)
Definition gallery_slide : Slide :=
  {| shapes_title := Ok None;
     shapes := [ picture 1 "JPEG" [xff; xd8];
                 text_box 2 "caption";
                 {| element := 3; has_text_frame := Some false;
                    text_frame_text := Raise;
                    shape_type := Ok (Some 13%Z); image := Ok None |};
                 {| element := 4; has_text_frame := Some false;
                    text_frame_text := Raise;
                    shape_type := Ok (Some 13%Z);
                    image := Ok (Some {| img_ext := Ok None;
                                         img_blob := [x01] |}) |};
                 picture 5 "" [x02] ];
     notes_text := Ok None |}.

(** Text of the ASCII range, the range on which [PyStr] is Python's
    [str]. *)
Definition is_ascii_char (c : ascii) : bool := nat_of_ascii c <? 128.

Fixpoint ascii_text (s : string) : bool :=
  match s with
  | EmptyString => true
  | String c r => is_ascii_char c && ascii_text r
  end.

Definition ascii_shape (sh : Shape) : bool :=
  match text_frame_text sh with
  | Ok (Some t) => ascii_text t
  | _ => true
  end.

(** A slide all of whose texts (title, text frames, notes) are ASCII. *)
Definition ascii_slide (slide : Slide) : bool :=
  match shapes_title slide with
  | Ok (Some sh) => ascii_shape sh
  | _ => true
  end
  && forallb ascii_shape (shapes slide)
  && match notes_text slide with
     | Ok (Some t) => ascii_text t
     | _ => true
     end.

(** Marker titles configured in ASCII. *)
Definition ascii_args (args : Args) : bool :=
  ascii_text (round1_title args) && ascii_text (round2_title args)
  && ascii_text (final_title args).

(** ** Path normalisation, as the resolver is described *)

(** The segments of a path between its slashes; [cur] is the segment
    being read. *)
Fixpoint segments_from (s cur : string) : list string :=
  match s with
  | EmptyString => [cur]
  | String c r =>
      if Ascii.eqb c "/"%char then cur :: segments_from r EmptyString
      else segments_from r (cur ++ String c EmptyString)%string
  end.

Definition segments (s : string) : list string := segments_from s EmptyString.

(** Collapsing parent-traversal segments: a segment ".." goes away
    together with the segment before it, when there is one; [stack]
    holds the segments kept so far, last first. *)
Fixpoint collapse (segs stack : list string) : list string :=
  match segs with
  | [] => rev stack
  | seg :: rest =>
      if String.eqb seg ".." then collapse rest (tl stack)
      else collapse rest (seg :: stack)
  end.

Fixpoint join_slash (segs : list string) : string :=
  match segs with
  | [] => EmptyString
  | [x] => x
  | x :: rest => (x ++ "/" ++ join_slash rest)%string
  end.

Definition collapse_parent_segments (path : string) : string :=
  join_slash (collapse (segments path) []).

(** The normalisation as described: parent-traversal segments
    collapsed, leading slashes stripped, the path rooted under "ppt/"
    when it is not already. *)
Definition described_normalize (target : string) : string :=
  let norm := PyStr.lstrip_slash (collapse_parent_segments target) in
  if PyStr.startswith norm "ppt/" then norm else ("ppt/" ++ norm)%string.

(** [k] slashes. *)
Fixpoint slashes (k : nat) : string :=
  match k with O => EmptyString | S k' => String "/"%char (slashes k') end.

(** No slash in [s]. *)
Fixpoint no_slash (s : string) : bool :=
  match s with
  | EmptyString => true
  | String c r => negb (Ascii.eqb c "/"%char) && no_slash r
  end.

(** No dot in [s]. *)
Fixpoint no_dot (s : string) : bool :=
  match s with
  | EmptyString => true
  | String c r => negb (Ascii.eqb c "."%char) && no_dot r
  end.

(** [s] is made of dots only. *)
Fixpoint all_dots (s : string) : bool :=
  match s with
  | EmptyString => true
  | String c r => Ascii.eqb c "."%char && all_dots r
  end.

(** A manifest reader that finds targets of every kind. *)
Definition mixed_manifest (xml : list byte) : list Element :=
  [ {| tag := "Relationship";
       attrib := [("Id", "rId1"); ("Target", "../media/media1.M4A")] |};
    {| tag := "Relationship";
       attrib := [("Id", "rId2"); ("Target", "../media/.mp3")] |};
    {| tag := "Relationship";
       attrib := [("Id", "rId3"); ("Target", "../media/my..song.mp3")] |};
    {| tag := "Relationship";
       attrib := [("Id", "rId4"); ("Target", "ppt/slides/../media/a.ogg")] |};
    {| tag := "RELATIONSHIP";
       attrib := [("Id", "rId5"); ("Target", "..\media/b.wav")] |};
    {| tag := "Relationship";
       attrib := [("Id", "rId6"); ("Target", "../media/image1.png")] |};
    {| tag := "Override"; attrib := [("Target", "../media/c.mp3")] |};
    {| tag := "Relationship";
       attrib := [("Id", "rId8"); ("Target", "../slides/d.mp3")] |};
    {| tag := "Relationship";
       attrib := [("Id", "rId9"); ("Target", "//ppt/media/e.aac")] |};
    {| tag := "Relationship";
       attrib := [("Id", "rId10"); ("Target", "../media/f.mp3.txt")] |};
    {| tag := "Relationship"; attrib := [("Id", "rId11")] |} ].

(** A deck whose second slide has the manifest above, the archive
    holding every part the manifest names. *)
Definition mixed_deck : Pptx :=
  {| prs_slides := [marker_slide "ROUND 1";
                    text_slide "Music" "Name this tune" "Ode to Joy"];
     members := [("ppt/slides/_rels/slide2.xml.rels", [x3c]);
                 ("ppt/media/media1.M4A", [x01]);
                 ("ppt/media/.mp3", [x02]);
                 ("ppt/media/my..song.mp3", [x03]);
                 ("ppt/media/a.ogg", [x04]);
                 ("ppt/media/b.wav", [x05]);
                 ("ppt/media/e.aac", [x06])] |}.

(** ** Proof automation *)

(** Splits a goal about [step] or [classify] along the three title
    tests of the loop. *)
Ltac title_tests args slide :=
  unfold step, classify in *;
  destruct (String.eqb
              (PyStr.upper (PyStr.strip (get_slide_title slide))) (r1_key args));
  [ | destruct (String.eqb
                  (PyStr.upper (PyStr.strip (get_slide_title slide)))
                  (r2_key args));
      [ | destruct (String.eqb
                      (PyStr.upper (PyStr.strip (get_slide_title slide)))
                      (f_key args)) ] ].

(** * Properties *)

(** ** Strings *)


Lemma truthy_true_iff (s : string) : PyStr.truthy s = true <-> s <> "".
Proof. destruct s; simpl; split; congruence. Qed.

Lemma string_app_assoc (a b c : string) :
  ((a ++ b) ++ c = a ++ b ++ c)%string.
Proof. induction a as [| x a IH]; cbn; [reflexivity | now rewrite IH]. Qed.

Lemma str_in_In (x : string) (xs : list string) :
  str_in x xs = true <-> In x xs.
Proof.
  unfold str_in. rewrite existsb_exists. split.
  - intros [y [Hy He]]. apply String.eqb_eq in He. now subst.
  - intros H. exists x. split; [assumption | apply String.eqb_refl].
Qed.

Lemma str_in_app (x : string) (xs ys : list string) :
  str_in x (xs ++ ys) = str_in x xs || str_in x ys.
Proof. unfold str_in. apply existsb_app. Qed.

(** ** Classification of a slide *)

Lemma matches_no_marker_classify (args : Args) (slide : Slide) :
  matches_no_marker args slide <-> classify args slide = Content.
Proof.
  unfold matches_no_marker, classify.
  destruct (String.eqb_spec
              (PyStr.upper (PyStr.strip (get_slide_title slide))) (r1_key args));
  destruct (String.eqb_spec
              (PyStr.upper (PyStr.strip (get_slide_title slide))) (r2_key args));
  destruct (String.eqb_spec
              (PyStr.upper (PyStr.strip (get_slide_title slide))) (f_key args));
  split; try discriminate; try tauto; intros; auto.
Qed.

Section StepEquations.
Variable fromstring : list byte -> list Element.
Variable args : Args.

Lemma step_round1_marker (st : State) (idx : nat) (slide : Slide) :
  classify args slide = Round1Marker ->
  step fromstring args st idx slide = Ok (set_current_round st (Some round1)).
Proof. intros H. title_tests args slide; try discriminate; reflexivity. Qed.

Lemma step_round2_marker (st : State) (idx : nat) (slide : Slide) :
  classify args slide = Round2Marker ->
  step fromstring args st idx slide = Ok (set_current_round st (Some round2)).
Proof. intros H. title_tests args slide; try discriminate; reflexivity. Qed.

Lemma step_final_marker (st : State) (idx : nat) (slide : Slide) (q : string) :
  classify args slide = FinalMarker ->
  get_body_text slide = Ok q ->
  step fromstring args st idx slide =
  match extract_images_from_slide slide (images_dir args) idx with
  | Ok _ =>
      Ok {| current_round := None;
            rounds_round1 := rounds_round1 st;
            rounds_round2 := rounds_round2 st;
            st_final := Some (final_for fromstring args idx slide q);
            files := files st ++ media_files fromstring args idx slide |}
  | Raise => Raise
  end.
Proof.
  intros H Hq. title_tests args slide; try discriminate.
  rewrite Hq. unfold final_for, media_files, extracted_images. simpl.
  destruct (extract_images_from_slide slide (images_dir args) idx)
    as [[imgs wi] |]; [ | reflexivity ].
  simpl.
  destruct (extract_audio_from_slide fromstring (pptx_path args)
              (audio_dir args) idx).
  reflexivity.
Qed.

Lemma step_final_marker_raise (st : State) (idx : nat) (slide : Slide) :
  classify args slide = FinalMarker ->
  get_body_text slide = Raise ->
  step fromstring args st idx slide = Raise.
Proof.
  intros H Hq. title_tests args slide; try discriminate.
  rewrite Hq. reflexivity.
Qed.

Lemma step_outside_round (st : State) (idx : nat) (slide : Slide) :
  classify args slide = Content ->
  current_round st = None ->
  step fromstring args st idx slide = Ok st.
Proof.
  intros H Hc. title_tests args slide; try discriminate.
  rewrite Hc. reflexivity.
Qed.

Lemma step_content (st : State) (idx : nat) (slide : Slide)
    (cr : RoundKey) (q : string) :
  classify args slide = Content ->
  current_round st = Some cr ->
  get_body_text slide = Ok q ->
  step fromstring args st idx slide =
  if PyStr.truthy (PyStr.strip (get_slide_title slide)) && PyStr.truthy q
     && PyStr.truthy (get_notes_text slide)
  then match extract_images_from_slide slide (images_dir args) idx with
       | Ok _ =>
           Ok (add_files
                 (set_rounds st cr
                    (add_clue (PyStr.strip (get_slide_title slide))
                       (clue_for fromstring args idx slide q) (rounds st cr)))
                 (media_files fromstring args idx slide))
       | Raise => Raise
       end
  else Ok st.
Proof.
  intros H Hc Hq. title_tests args slide; try discriminate.
  rewrite Hc, Hq. simpl.
  destruct (PyStr.truthy (PyStr.strip (get_slide_title slide)));
    [ | reflexivity ].
  destruct (PyStr.truthy q); [ | reflexivity ].
  destruct (PyStr.truthy (get_notes_text slide)); [ | reflexivity ].
  simpl. unfold clue_for, media_files, add_clue, extracted_images.
  destruct (extract_images_from_slide slide (images_dir args) idx)
    as [[imgs wi] |]; [ | reflexivity ].
  simpl.
  destruct (extract_audio_from_slide fromstring (pptx_path args)
              (audio_dir args) idx).
  reflexivity.
Qed.

Lemma step_content_raise (st : State) (idx : nat) (slide : Slide)
    (cr : RoundKey) :
  classify args slide = Content ->
  current_round st = Some cr ->
  get_body_text slide = Raise ->
  step fromstring args st idx slide = Raise.
Proof.
  intros H Hc Hq. title_tests args slide; try discriminate.
  rewrite Hc, Hq. reflexivity.
Qed.

End StepEquations.

(** ** When picture extraction returns *)

Lemma images_loop_returns (images_dir : string) (idx : nat)
    (shs : list Shape) :
  forall img_num extracted written,
    (exists p,
       images_loop images_dir idx shs img_num extracted written = Ok p)
    <-> forallb picture_test_ok shs = true.
Proof.
  induction shs as [| sh rest IH]; intros img_num extracted written.
  - cbn. split; [reflexivity | eauto].
  - cbn [images_loop forallb]. unfold picture_test_ok at 1.
    destruct (shape_type sh) as [t |]; cbn [bind].
    2: { split; [intros [p H]; discriminate | discriminate]. }
    destruct t as [[| [p | p |] | p] |]; cbn [andb]; try apply IH.
    repeat (destruct p as [p | p |]; cbn [andb]; try apply IH).
    destruct (image sh) as [[img |] |]; cbn [bind andb]; try apply IH.
    2: { split; [intros [p H]; discriminate | discriminate]. }
    cbn zeta. destruct (img_ext img) as [e |]; cbn [bind andb];
      [apply IH | ].
    split; [intros [p H]; discriminate | discriminate].
Qed.

Lemma extract_images_returns (slide : Slide) (images_dir : string)
    (idx : nat) :
  pictures_ok slide = true ->
  extract_images_from_slide slide images_dir idx
  = Ok (extracted_images slide images_dir idx).
Proof.
  intros H. unfold extracted_images.
  destruct (proj2 (images_loop_returns images_dir idx (shapes slide) 0 [] [])
              H) as [p Hp].
  unfold extract_images_from_slide. now rewrite Hp.
Qed.

Lemma extract_images_raises (slide : Slide) (images_dir : string)
    (idx : nat) :
  extract_images_from_slide slide images_dir idx = Raise
  <-> pictures_ok slide = false.
Proof.
  unfold extract_images_from_slide, pictures_ok.
  pose proof (images_loop_returns images_dir idx (shapes slide) 0 [] [])
    as H.
  destruct (images_loop images_dir idx (shapes slide) 0 [] []) as [p |].
  - split; [discriminate | ]. intros E.
    rewrite (proj1 H (ex_intro _ p eq_refl)) in E. discriminate.
  - split; [ | reflexivity ]. intros _.
    destruct (forallb picture_test_ok (shapes slide)); [ | reflexivity ].
    destruct (proj2 H eq_refl) as [p Hp]. discriminate.
Qed.

(** ** The ordered dictionary *)

Lemma mem_keys (k : string) (d : OrderedDict.t Clue) :
  OrderedDict.mem k d = str_in k (OrderedDict.keys d).
Proof.
  unfold OrderedDict.mem, OrderedDict.keys, str_in.
  induction d as [| [k' l] d IH]; simpl; [reflexivity | now rewrite IH].
Qed.

Lemma set_empty_absent (k : string) (d : OrderedDict.t Clue) :
  OrderedDict.mem k d = false -> OrderedDict.set_empty k d = d ++ [(k, [])].
Proof.
  induction d as [| [k' l] d IH]; simpl; intros H; [reflexivity | ].
  apply orb_false_iff in H. destruct H as [Hk Hd].
  rewrite Hk. now rewrite IH.
Qed.

Lemma append_at_last (k : string) (x : Clue) (l : list Clue)
    (d : OrderedDict.t Clue) :
  OrderedDict.mem k d = false ->
  OrderedDict.append_at k x (d ++ [(k, l)]) = d ++ [(k, l ++ [x])].
Proof.
  induction d as [| [k' l'] d IH]; simpl; intros H.
  - now rewrite String.eqb_refl.
  - apply orb_false_iff in H. destruct H as [Hk Hd].
    rewrite Hk. now rewrite IH.
Qed.

Lemma add_clue_absent (k : string) (x : Clue) (d : OrderedDict.t Clue) :
  OrderedDict.mem k d = false -> add_clue k x d = d ++ [(k, [x])].
Proof.
  intros H. unfold add_clue. rewrite H. simpl.
  rewrite set_empty_absent by assumption.
  now rewrite append_at_last.
Qed.

Lemma add_clue_present (k : string) (x : Clue) (d : OrderedDict.t Clue) :
  OrderedDict.mem k d = true -> add_clue k x d = OrderedDict.append_at k x d.
Proof. intros H. unfold add_clue. now rewrite H. Qed.

Lemma append_at_keys (k : string) (x : Clue) (d : OrderedDict.t Clue) :
  OrderedDict.keys (OrderedDict.append_at k x d) = OrderedDict.keys d.
Proof.
  unfold OrderedDict.keys.
  induction d as [| [k' l] d IH]; simpl; [reflexivity | ].
  destruct (String.eqb k k'); simpl; [reflexivity | now rewrite IH].
Qed.

Lemma add_clue_keys (k : string) (x : Clue) (d : OrderedDict.t Clue) :
  OrderedDict.keys (add_clue k x d) =
  if OrderedDict.mem k d then OrderedDict.keys d else OrderedDict.keys d ++ [k].
Proof.
  destruct (OrderedDict.mem k d) eqn:H.
  - rewrite add_clue_present by assumption. apply append_at_keys.
  - rewrite add_clue_absent by assumption.
    unfold OrderedDict.keys. now rewrite map_app.
Qed.

Lemma get_absent (k : string) (d : OrderedDict.t Clue) :
  OrderedDict.mem k d = false -> OrderedDict.get k d = [].
Proof.
  induction d as [| [k' l] d IH]; simpl; intros H; [reflexivity | ].
  apply orb_false_iff in H. destruct H as [Hk Hd]. rewrite Hk. auto.
Qed.

Lemma get_app (k : string) (d e : OrderedDict.t Clue) :
  OrderedDict.get k (d ++ e) =
  if OrderedDict.mem k d then OrderedDict.get k d else OrderedDict.get k e.
Proof.
  induction d as [| [k' l] d IH]; simpl; [reflexivity | ].
  destruct (String.eqb k k'); simpl; [reflexivity | apply IH].
Qed.

Lemma get_append_at_same (k : string) (x : Clue) (d : OrderedDict.t Clue) :
  OrderedDict.mem k d = true ->
  OrderedDict.get k (OrderedDict.append_at k x d) = OrderedDict.get k d ++ [x].
Proof.
  induction d as [| [k' l] d IH]; simpl; intros H; [discriminate | ].
  destruct (String.eqb k k') eqn:E; simpl; rewrite E; [reflexivity | ].
  simpl in H. auto.
Qed.

Lemma get_append_at_other (k c : string) (x : Clue) (d : OrderedDict.t Clue) :
  c <> k ->
  OrderedDict.get c (OrderedDict.append_at k x d) = OrderedDict.get c d.
Proof.
  intros Hne. induction d as [| [k' l] d IH]; simpl; [reflexivity | ].
  destruct (String.eqb_spec k k') as [-> | Hk]; simpl.
  - apply String.eqb_neq in Hne. now rewrite Hne.
  - destruct (String.eqb c k'); [reflexivity | apply IH].
Qed.

Lemma add_clue_get_same (k : string) (x : Clue) (d : OrderedDict.t Clue) :
  OrderedDict.get k (add_clue k x d) = OrderedDict.get k d ++ [x].
Proof.
  destruct (OrderedDict.mem k d) eqn:H.
  - rewrite add_clue_present by assumption. now apply get_append_at_same.
  - rewrite add_clue_absent by assumption. rewrite get_app, H.
    rewrite (get_absent k d) by assumption. simpl. now rewrite String.eqb_refl.
Qed.

Lemma add_clue_get_other (k c : string) (x : Clue) (d : OrderedDict.t Clue) :
  c <> k -> OrderedDict.get c (add_clue k x d) = OrderedDict.get c d.
Proof.
  intros Hne. destruct (OrderedDict.mem k d) eqn:H.
  - rewrite add_clue_present by assumption. now apply get_append_at_other.
  - rewrite add_clue_absent by assumption. rewrite get_app.
    destruct (OrderedDict.mem c d) eqn:Hc; [reflexivity | ].
    rewrite (get_absent c d) by assumption. simpl.
    apply String.eqb_neq in Hne. now rewrite Hne.
Qed.

Lemma clue_count_app (d e : OrderedDict.t Clue) :
  clue_count (d ++ e) = clue_count d + clue_count e.
Proof.
  unfold clue_count. now rewrite map_app, concat_app, length_app.
Qed.

Lemma clue_count_append_at (k : string) (x : Clue) (d : OrderedDict.t Clue) :
  OrderedDict.mem k d = true ->
  clue_count (OrderedDict.append_at k x d) = S (clue_count d).
Proof.
  unfold clue_count.
  induction d as [| [k' l] d IH]; simpl; intros H; [discriminate | ].
  destruct (String.eqb k k') eqn:E; simpl.
  - rewrite !length_app. simpl. lia.
  - simpl in H. rewrite !length_app. rewrite IH by assumption. lia.
Qed.

Lemma clue_count_add_clue (k : string) (x : Clue) (d : OrderedDict.t Clue) :
  clue_count (add_clue k x d) = S (clue_count d).
Proof.
  destruct (OrderedDict.mem k d) eqn:H.
  - rewrite add_clue_present by assumption. now apply clue_count_append_at.
  - rewrite add_clue_absent by assumption. rewrite clue_count_app.
    unfold clue_count at 2. simpl. lia.
Qed.

(** ** Reading the state back *)

Lemma rounds_set_same (st : State) (k : RoundKey) (d : OrderedDict.t Clue)
    (w : list FileWrite) :
  rounds (add_files (set_rounds st k d) w) k = d.
Proof. destruct k; reflexivity. Qed.


Lemma final_set_rounds (st : State) (k : RoundKey) (d : OrderedDict.t Clue)
    (w : list FileWrite) :
  st_final (add_files (set_rounds st k d) w) = st_final st.
Proof. destruct k; reflexivity. Qed.

Lemma current_set_rounds (st : State) (k : RoundKey) (d : OrderedDict.t Clue)
    (w : list FileWrite) :
  current_round (add_files (set_rounds st k d) w) = current_round st.
Proof. destruct k; reflexivity. Qed.

(** ** The round-trip scenario *)

(** C1.  On the synthetic deck (a "ROUND 1" marker, the clue slide
    "Science" / "Water's chemical formula?" / "H2O", a "ROUND 2" marker
    and the slide "FINAL JEOPARDY" / "Capital of France" / "Paris", no
    media anywhere) the pipeline, run with the default marker titles and
    whatever the manifest reader, returns the document whose round 1
    holds the single category "Science" with the single clue, without
    images or audio key, whose round 2 has no category and whose final
    record is the expected one; no asset file is written. *)
Theorem round_trip_scenario (fromstring : list byte -> list Element) :
  main fromstring (default_args synthetic_deck) = Ok (synthetic_document, []).
Proof. reflexivity. Qed.

(** ** Clue slides inside a round *)




(** ** Slides before any round marker *)

(** C8.  While no section is in force, a slide whose title matches none
    of the three markers leaves the whole state as it was: no clue in
    either round, the same final record, no file written, and still no
    section; what the slide holds plays no part. *)
Theorem pre_section_skip
    (fromstring : list byte -> list Element) (args : Args) (st : State)
    (idx : nat) (slide : Slide) :
  current_round st = None ->
  matches_no_marker args slide ->
  step fromstring args st idx slide = Ok st.
Proof.
  intros Hc Hm. apply matches_no_marker_classify in Hm.
  now apply step_outside_round.
Qed.

Lemma pre_section_skip_witness :
  current_round initial_state = None
  /\ matches_no_marker (default_args audio_deck) picture_slide
  /\ step sample_manifest (default_args audio_deck) initial_state 1
       picture_slide = Ok initial_state.
Proof.
  assert (H1 : current_round initial_state = None) by reflexivity.
  assert (H2 : matches_no_marker (default_args audio_deck) picture_slide)
    by (repeat split; discriminate).
  split; [exact H1 | split; [exact H2 | ]].
  exact (@pre_section_skip sample_manifest (default_args audio_deck)
           initial_state 1 picture_slide H1 H2).
Defined.

(** ** One iteration, read backwards *)

Section Loop.
Variable fromstring : list byte -> list Element.
Variable args : Args.

(** Whatever state an iteration returns is the one its case of the
    if-chain builds. *)
Lemma step_inv (st st' : State) (idx : nat) (slide : Slide) :
  step fromstring args st idx slide = Ok st' ->
  match classify args slide with
  | Round1Marker => st' = set_current_round st (Some round1)
  | Round2Marker => st' = set_current_round st (Some round2)
  | FinalMarker =>
      exists q, get_body_text slide = Ok q
        /\ st' = {| current_round := None;
                    rounds_round1 := rounds_round1 st;
                    rounds_round2 := rounds_round2 st;
                    st_final := Some (final_for fromstring args idx slide q);
                    files := files st ++ media_files fromstring args idx slide |}
  | Content =>
      match current_round st with
      | None => st' = st
      | Some cr =>
          exists q, get_body_text slide = Ok q
            /\ st' =
               if PyStr.truthy (PyStr.strip (get_slide_title slide))
                  && PyStr.truthy q && PyStr.truthy (get_notes_text slide)
               then add_files
                      (set_rounds st cr
                         (add_clue (PyStr.strip (get_slide_title slide))
                            (clue_for fromstring args idx slide q)
                            (rounds st cr)))
                      (media_files fromstring args idx slide)
               else st
      end
  end.
Proof.
  intros H. destruct (classify args slide) eqn:Hk.
  - rewrite step_round1_marker in H by assumption. congruence.
  - rewrite step_round2_marker in H by assumption. congruence.
  - destruct (get_body_text slide) as [q |] eqn:Hq.
    + rewrite (step_final_marker fromstring args st idx slide Hk Hq) in H.
      exists q. split; [reflexivity | ].
      destruct (extract_images_from_slide slide (images_dir args) idx);
        congruence.
    + rewrite step_final_marker_raise in H by assumption. discriminate.
  - destruct (current_round st) as [cr |] eqn:Hc.
    + destruct (get_body_text slide) as [q |] eqn:Hq.
      * rewrite (step_content fromstring args st idx slide Hk Hc Hq) in H.
        exists q. split; [reflexivity | ].
        destruct (PyStr.truthy (PyStr.strip (get_slide_title slide))
                  && PyStr.truthy q && PyStr.truthy (get_notes_text slide));
          [ | congruence ].
        destruct (extract_images_from_slide slide (images_dir args) idx);
          congruence.
      * rewrite (step_content_raise fromstring args st idx slide Hk Hc Hq) in H.
        discriminate.
    + rewrite step_outside_round in H by assumption. congruence.
Qed.

(** An iteration returns a state whenever the body and the pictures of
    its slide can be read. *)
Lemma step_total (st : State) (idx : nat) (slide : Slide) :
  body_ok slide = true ->
  pictures_ok slide = true ->
  exists st', step fromstring args st idx slide = Ok st'.
Proof.
  unfold body_ok. intros H Hpic.
  destruct (get_body_text slide) as [q |] eqn:Hq; [ | discriminate ].
  destruct (classify args slide) eqn:Hk.
  - eexists. now apply step_round1_marker.
  - eexists. now apply step_round2_marker.
  - rewrite (step_final_marker fromstring args st idx slide Hk Hq).
    rewrite (extract_images_returns slide (images_dir args) idx Hpic).
    eexists. reflexivity.
  - destruct (current_round st) as [cr |] eqn:Hc.
    + rewrite (step_content fromstring args st idx slide Hk Hc Hq).
      rewrite (extract_images_returns slide (images_dir args) idx Hpic).
      destruct (PyStr.truthy (PyStr.strip (get_slide_title slide))
                && PyStr.truthy q && PyStr.truthy (get_notes_text slide));
        eexists; reflexivity.
    + eexists. now apply step_outside_round.
Qed.


Lemma loop_app (a b : list Slide) :
  forall idx st,
    loop fromstring args (a ++ b) idx st =
    (st1 <- loop fromstring args a idx st ;;
     loop fromstring args b (idx + length a) st1).
Proof.
  induction a as [| s a IH]; intros idx st; simpl.
  - now rewrite Nat.add_0_r.
  - destruct (step fromstring args st idx s) as [st1 |]; simpl;
      [ | reflexivity ].
    rewrite IH. now rewrite Nat.add_succ_r.
Qed.

(** Only a final slide touches the final record. *)
Lemma step_keeps_final (st st' : State) (idx : nat) (slide : Slide) :
  classify args slide <> FinalMarker ->
  step fromstring args st idx slide = Ok st' ->
  st_final st' = st_final st.
Proof.
  intros Hk H. apply step_inv in H.
  destruct (classify args slide); try congruence.
  - now subst.
  - now subst.
  - destruct (current_round st) as [cr |]; [ | now subst ].
    destruct H as (q & _ & ->).
    destruct (PyStr.truthy (PyStr.strip (get_slide_title slide))
              && PyStr.truthy q && PyStr.truthy (get_notes_text slide));
      [ apply final_set_rounds | reflexivity ].
Qed.

Lemma loop_keeps_final (slides : list Slide) :
  Forall (fun s => classify args s <> FinalMarker) slides ->
  forall idx st st',
    loop fromstring args slides idx st = Ok st' ->
    st_final st' = st_final st.
Proof.
  induction 1 as [| s rest Hs _ IH]; intros idx st st' H; simpl in H.
  - congruence.
  - destruct (step fromstring args st idx s) as [st1 |] eqn:H1; simpl in H;
      [ | discriminate ].
    rewrite (IH _ _ _ H). now apply step_keeps_final with (idx := idx) (slide := s).
Qed.

(** Once set, the final record stays set. *)
Lemma step_final_stays (st st' : State) (idx : nat) (slide : Slide) :
  step fromstring args st idx slide = Ok st' ->
  st_final st <> None -> st_final st' <> None.
Proof.
  intros H Hf. destruct (classify args slide) eqn:Hk.
  - rewrite (step_keeps_final st idx slide) by congruence. assumption.
  - rewrite (step_keeps_final st idx slide) by congruence. assumption.
  - apply step_inv in H. rewrite Hk in H. destruct H as (q & _ & ->).
    simpl. discriminate.
  - rewrite (step_keeps_final st idx slide) by congruence. assumption.
Qed.

Lemma loop_final_stays (slides : list Slide) :
  forall idx st st',
    loop fromstring args slides idx st = Ok st' ->
    st_final st <> None -> st_final st' <> None.
Proof.
  induction slides as [| s rest IH]; intros idx st st' H Hf; simpl in H.
  - congruence.
  - destruct (step fromstring args st idx s) as [st1 |] eqn:H1; simpl in H;
      [ | discriminate ].
    apply (IH _ _ _ H). now apply (step_final_stays st idx s H1).
Qed.

(** Outside a round, slides that are not round markers add no clue and
    open no section. *)
Lemma step_outside_keeps_rounds (st st' : State) (idx : nat) (slide : Slide) :
  current_round st = None ->
  classify args slide <> Round1Marker ->
  classify args slide <> Round2Marker ->
  step fromstring args st idx slide = Ok st' ->
  current_round st' = None /\ forall k, rounds st' k = rounds st k.
Proof.
  intros Hc H1 H2 H. apply step_inv in H.
  destruct (classify args slide); try congruence.
  - destruct H as (q & _ & ->). split; [reflexivity | now intros []].
  - rewrite Hc in H. subst. now split.
Qed.

Lemma loop_outside_keeps_rounds (slides : list Slide) :
  Forall (fun s => classify args s <> Round1Marker
                   /\ classify args s <> Round2Marker) slides ->
  forall idx st st',
    current_round st = None ->
    loop fromstring args slides idx st = Ok st' ->
    current_round st' = None /\ forall k, rounds st' k = rounds st k.
Proof.
  induction 1 as [| s rest [Hs1 Hs2] _ IH]; intros idx st st' Hc H; simpl in H.
  - inversion H; subst. now split.
  - destruct (step fromstring args st idx s) as [st1 |] eqn:E; simpl in H;
      [ | discriminate ].
    destruct (step_outside_keeps_rounds st idx s Hc Hs1 Hs2 E) as [Hc1 Hr1].
    destruct (IH _ _ _ Hc1 H) as [Hc' Hr']. split; [assumption | ].
    intros k. now rewrite Hr', Hr1.
Qed.

End Loop.

(** ** The final record *)

Lemma loop_last_final (fromstring : list byte -> list Element) (args : Args)
    (pre post : list Slide) (s : Slide) (idx : nat) (st st' : State) :
  classify args s = FinalMarker ->
  Forall (fun x => classify args x <> FinalMarker) post ->
  loop fromstring args (pre ++ s :: post) idx st = Ok st' ->
  exists q, get_body_text s = Ok q
    /\ st_final st' = Some (final_for fromstring args (idx + length pre) s q).
Proof.
  intros Hk Hpost H. rewrite loop_app in H.
  destruct (loop fromstring args pre idx st) as [st1 |]; simpl in H;
    [ | discriminate ].
  destruct (step fromstring args st1 (idx + length pre) s) as [st2 |] eqn:E;
    simpl in H; [ | discriminate ].
  apply step_inv in E. rewrite Hk in E. destruct E as (q & Hq & ->).
  exists q. split; [assumption | ].
  now rewrite (loop_keeps_final fromstring args Hpost _ _ H).
Qed.

Lemma loop_some_final (fromstring : list byte -> list Element) (args : Args)
    (slides : list Slide) :
  Exists (fun s => classify args s = FinalMarker) slides ->
  forall idx st st',
    loop fromstring args slides idx st = Ok st' -> st_final st' <> None.
Proof.
  induction 1 as [s rest Hs | s rest _ IH]; intros idx st st' H; simpl in H;
    destruct (step fromstring args st idx s) as [st1 |] eqn:E; simpl in H;
    try discriminate.
  - apply (loop_final_stays fromstring args rest _ _ H).
    apply step_inv in E. rewrite Hs in E. destruct E as (q & _ & ->).
    simpl. discriminate.
  - exact (IH _ _ _ H).
Qed.

Lemma main_inv (fromstring : list byte -> list Element) (args : Args)
    (doc : Document) (w : list FileWrite) :
  main fromstring args = Ok (doc, w) ->
  exists st,
    loop fromstring args (prs_slides (pptx args)) 1 initial_state = Ok st
    /\ doc = build_document st /\ w = files st.
Proof.
  unfold main, pptx_path. intros H.
  destruct (loop fromstring args (prs_slides (pptx args)) 1 initial_state)
    as [st |]; simpl in H; [ | discriminate ].
  exists st. inversion H. auto.
Qed.

Lemma step_final_category (fromstring : list byte -> list Element)
    (args : Args) (st st' : State) (idx : nat) (slide : Slide) :
  step fromstring args st idx slide = Ok st' ->
  (forall f, st_final st = Some f -> fin_category f = final_title args) ->
  forall f, st_final st' = Some f -> fin_category f = final_title args.
Proof.
  intros H Hinv f Hf. destruct (classify args slide) eqn:Hk.
  - apply Hinv.
    rewrite <- (@step_keeps_final fromstring args st st' idx slide);
      [assumption | congruence | assumption].
  - apply Hinv.
    rewrite <- (@step_keeps_final fromstring args st st' idx slide);
      [assumption | congruence | assumption].
  - apply step_inv in H. rewrite Hk in H. destruct H as (q & _ & ->).
    cbn in Hf. inversion Hf. reflexivity.
  - apply Hinv.
    rewrite <- (@step_keeps_final fromstring args st st' idx slide);
      [assumption | congruence | assumption].
Qed.

Lemma loop_final_category (fromstring : list byte -> list Element)
    (args : Args) (slides : list Slide) :
  forall idx st st',
    loop fromstring args slides idx st = Ok st' ->
    (forall f, st_final st = Some f -> fin_category f = final_title args) ->
    forall f, st_final st' = Some f -> fin_category f = final_title args.
Proof.
  induction slides as [| s rest IH]; intros idx st st' H Hinv; simpl in H.
  - inversion H; subst. exact Hinv.
  - destruct (step fromstring args st idx s) as [st1 |] eqn:E; simpl in H;
      [ | discriminate ].
    apply (IH _ _ _ H).
    exact (@step_final_category fromstring args st st1 idx s E Hinv).
Qed.

(** C4.  The output holds at most one final record (its [final] field
    is an optional record).  When the slides are [pre], then a final
    slide [s], then slides [post] none of which is a final slide, the
    [final] field of the document returned is the record built from [s]
    at its ordinal.  The category of the final record of any document
    returned is the configured final-marker text as given.  And after
    every final slide, the last one or not, the iteration that returns
    leaves no section in force and both rounds as they were, so that
    the slides after it, up to the next round marker, add no clue to
    either round. *)
Theorem final_singularity
    (fromstring : list byte -> list Element) (args : Args) :
  (forall pre post s doc w,
     prs_slides (pptx args) = pre ++ s :: post ->
     classify args s = FinalMarker ->
     Forall (fun x => classify args x <> FinalMarker) post ->
     main fromstring args = Ok (doc, w) ->
     exists q, get_body_text s = Ok q
       /\ final doc = Some (final_for fromstring args (S (length pre)) s q))
  /\ (forall doc w f,
        main fromstring args = Ok (doc, w) ->
        final doc = Some f -> fin_category f = final_title args)
  /\ (forall st idx s st1,
        classify args s = FinalMarker ->
        step fromstring args st idx s = Ok st1 ->
        current_round st1 = None
        /\ (forall k, rounds st1 k = rounds st k)
        /\ forall rest idx' st2,
             Forall (fun x => classify args x <> Round1Marker
                              /\ classify args x <> Round2Marker) rest ->
             loop fromstring args rest idx' st1 = Ok st2 ->
             current_round st2 = None
             /\ forall k, rounds st2 k = rounds st k).
Proof.
  split; [ | split ].
  - intros pre post s doc w Hdeck Hk Hpost Hmain.
    destruct (main_inv _ _ Hmain) as (st' & Hloop & -> & _).
    rewrite Hdeck in Hloop.
    destruct (@loop_last_final fromstring args pre post s 1 initial_state st'
                Hk Hpost Hloop) as (q & Hq & Hf).
    exists q. split; [assumption | exact Hf].
  - intros doc w f Hmain Hf.
    destruct (main_inv _ _ Hmain) as (st' & Hloop & -> & _).
    apply (@loop_final_category fromstring args _ 1 initial_state st' Hloop);
      [ | exact Hf ].
    intros f0 H0. discriminate H0.
  - intros st idx s st1 Hk E.
    assert (E' := E). apply step_inv in E'. rewrite Hk in E'.
    destruct E' as (q' & _ & E').
    assert (Hc1 : current_round st1 = None) by (subst st1; reflexivity).
    assert (Hr1 : forall k, rounds st1 k = rounds st k)
      by (subst st1; now intros []).
    split; [assumption | split; [assumption | ]].
    intros rest idx' st2 Hrest Hl.
    destruct (@loop_outside_keeps_rounds fromstring args rest Hrest idx'
                st1 st2 Hc1 Hl) as [Hc2 Hr2].
    split; [assumption | ]. intros k. now rewrite Hr2, Hr1.
Qed.

Lemma final_singularity_witness :
  exists doc w,
    main sample_manifest (default_args two_finals_deck) = Ok (doc, w)
    /\ final doc
       = Some {| fin_category := "FINAL JEOPARDY";
                 fin_question := "Capital of France";
                 fin_answer := "Paris";
                 fin_images := None; fin_audio := None |}
    /\ doc_rounds doc = [ {| name := "Round 1"; categories := [] |};
                          {| name := "Round 2"; categories := [] |} ].
Proof.
  eexists. eexists. split; [reflexivity | ].
  destruct (@final_singularity sample_manifest
              (default_args two_finals_deck)) as (Hlast & _ & _).
  destruct (Hlast
              [marker_slide "ROUND 1";
               text_slide "FINAL JEOPARDY" "First question" "First answer";
               text_slide "Science" "Water's chemical formula?" "H2O"]
              []
              (text_slide "final jeopardy" "Capital of France" "Paris")
              _ _ eq_refl eq_refl (Forall_nil _) eq_refl)
    as (q & Hq & Hf).
  split; [ | reflexivity ].
  rewrite Hf. inversion Hq. reflexivity.
Defined.




(** ** The field extractors under faults *)

Lemma get_slide_title_no_title (slide : Slide) :
  shapes_title slide = Ok None -> get_slide_title slide = "".
Proof. unfold get_slide_title. now intros ->. Qed.

Lemma get_slide_title_fault (slide : Slide) :
  shapes_title slide = Raise -> get_slide_title slide = "".
Proof. unfold get_slide_title. now intros ->. Qed.

Lemma get_slide_title_unreadable (slide : Slide) (sh : Shape) :
  shapes_title slide = Ok (Some sh) ->
  text_frame_text sh = Raise ->
  get_slide_title slide = "".
Proof.
  unfold get_slide_title. intros -> Ht. simpl.
  destruct (has_text_frame sh) as [[|] |]; simpl; try reflexivity.
  now rewrite Ht.
Qed.

Lemma get_notes_text_fault (slide : Slide) :
  notes_text slide = Raise -> get_notes_text slide = "".
Proof. unfold get_notes_text. now intros ->. Qed.

Lemma get_notes_text_none (slide : Slide) :
  notes_text slide = Ok None -> get_notes_text slide = "".
Proof. unfold get_notes_text. now intros ->. Qed.

Lemma body_parts_readable (title_shape : option Shape) (shs : list Shape) :
  Forall (fun sh => text_frame_text sh <> Raise) shs ->
  forall parts, exists l, body_parts title_shape shs parts = Ok l.
Proof.
  induction 1 as [| sh rest Hsh _ IH]; intros parts; simpl.
  - now exists parts.
  - destruct (negb match has_text_frame sh with
                   | Some b => b
                   | None => false
                   end); [apply IH | ].
    destruct (match title_shape with
              | Some t => shape_eq sh t
              | None => false
              end); [apply IH | ].
    destruct (text_frame_text sh) as [txt |]; [ | congruence ]. simpl.
    destruct (PyStr.truthy
                (PyStr.strip match txt with Some s => s | None => "" end));
      apply IH.
Qed.

(** The body is returned whenever the text of every shape can be read,
    the title lookup raising or not. *)
Lemma get_body_text_readable (slide : Slide) :
  Forall (fun sh => text_frame_text sh <> Raise) (shapes slide) ->
  exists s, get_body_text slide = Ok s.
Proof.
  intros H. unfold get_body_text.
  destruct (body_parts_readable (try_except (shapes_title slide) None) H [])
    as [l Hl].
  rewrite Hl. simpl. eauto.
Qed.

(** C7.  [get_slide_title] and [get_notes_text] turn every fault into
    the empty string, but [get_body_text] does not: on a slide whose
    text box cannot be read the exception leaves [get_body_text], and a
    run over a deck holding that slide inside a round raises instead of
    returning a document, while the same unreadable shape taken as the
    title gives the empty title. *)
Theorem body_text_fault_escapes (fromstring : list byte -> list Element) :
  get_body_text unreadable_body_slide = Raise
  /\ main fromstring (default_args unreadable_deck) = Raise
  /\ get_slide_title unreadable_title_slide = ""
  /\ get_notes_text unreadable_title_slide = "".
Proof. repeat split. Qed.

(** ** Empty marker titles *)

Lemma classify_empty_title (args : Args) (slide : Slide) :
  get_slide_title slide = "" ->
  classify args slide =
  if String.eqb "" (r1_key args) then Round1Marker
  else if String.eqb "" (r2_key args) then Round2Marker
  else if String.eqb "" (f_key args) then FinalMarker
  else Content.
Proof. unfold classify. now intros ->. Qed.

(** C9, counterexample.  The statement fails when two marker titles are empty:
    with the round-1 title empty and the round-2 title blank, a slide
    without title is taken for the round-1 marker, not the round-2 one. *)
Lemma empty_marker_counterexample :
  r2_key empty_rounds_args = ""
  /\ get_slide_title untitled_slide = ""
  /\ step sample_manifest empty_rounds_args initial_state 1 untitled_slide
     = Ok (set_current_round initial_state (Some round1))
  /\ step sample_manifest empty_rounds_args initial_state 1 untitled_slide
     <> Ok (set_current_round initial_state (Some round2)).
Proof. repeat split. discriminate. Qed.

(** C9, amended.  A slide without title region, or whose title lookup
    raises, has the empty title; and a slide with the empty title is
    taken for the first marker, in the order round 1, round 2, final,
    whose configured title is empty after trimming: as the round-1
    marker it opens round 1, as the round-2 marker it opens round 2,
    and as the final slide every state its iteration returns holds the
    final record built from it with no section in force, the iteration
    returning whenever the body and the pictures of the slide can be
    read; it is never skipped or read as a clue slide. *)
Theorem empty_marker_first_match
    (fromstring : list byte -> list Element) (args : Args) (st : State)
    (idx : nat) (slide : Slide) :
  (shapes_title slide = Ok None \/ shapes_title slide = Raise ->
   get_slide_title slide = "")
  /\ (get_slide_title slide = "" ->
      (r1_key args = "" ->
       classify args slide = Round1Marker
       /\ step fromstring args st idx slide
          = Ok (set_current_round st (Some round1)))
      /\ (r1_key args <> "" -> r2_key args = "" ->
          classify args slide = Round2Marker
          /\ step fromstring args st idx slide
             = Ok (set_current_round st (Some round2)))
      /\ (r1_key args <> "" -> r2_key args <> "" -> f_key args = "" ->
          classify args slide = FinalMarker
          /\ (forall st',
                step fromstring args st idx slide = Ok st' ->
                current_round st' = None
                /\ exists q,
                     get_body_text slide = Ok q
                     /\ st_final st'
                        = Some (final_for fromstring args idx slide q))
          /\ (body_ok slide = true -> pictures_ok slide = true ->
              exists st', step fromstring args st idx slide = Ok st'))).
Proof.
  split.
  - intros [H | H];
      [now apply get_slide_title_no_title | now apply get_slide_title_fault].
  - intros Ht. pose proof (@classify_empty_title args slide Ht) as Hc.
    split; [ | split ].
    + intros H1. rewrite H1 in Hc. split; [exact Hc | ].
      now apply step_round1_marker.
    + intros H1 H2. apply not_eq_sym, String.eqb_neq in H1.
      rewrite H1, H2 in Hc. split; [exact Hc | ].
      now apply step_round2_marker.
    + intros H1 H2 H3.
      apply not_eq_sym, String.eqb_neq in H1, H2.
      rewrite H1, H2, H3 in Hc. cbn in Hc.
      split; [exact Hc | split].
      * intros st' Hs. apply step_inv in Hs. rewrite Hc in Hs.
        destruct Hs as (q & Hq & ->). split; [reflexivity | ].
        exists q. split; [exact Hq | reflexivity].
      * intros Hb Hp. now apply step_total.
Qed.

Lemma empty_marker_first_match_witness :
  get_slide_title untitled_slide = ""
  /\ r1_key empty_round2_args <> ""
  /\ r2_key empty_round2_args = ""
  /\ step sample_manifest empty_round2_args initial_state 1 untitled_slide
     = Ok (set_current_round initial_state (Some round2)).
Proof.
  assert (H0 : get_slide_title untitled_slide = "") by reflexivity.
  assert (H1 : r1_key empty_round2_args <> "") by discriminate.
  assert (H2 : r2_key empty_round2_args = "") by reflexivity.
  split; [exact H0 | split; [exact H1 | split; [exact H2 | ]]].
  destruct (@empty_marker_first_match sample_manifest empty_round2_args
              initial_state 1 untitled_slide) as [_ H].
  destruct (H H0) as (_ & Hr2 & _).
  exact (proj2 (Hr2 H1 H2)).
Defined.

(** ** Media extraction *)

Lemma media_key_none (assets_root kind : string) (names : list string) :
  media_key assets_root kind names <> None <-> names <> [].
Proof. destruct names; simpl; split; congruence. Qed.

Lemma media_key_not_empty (assets_root kind : string) (names : list string) :
  media_key assets_root kind names <> Some [].
Proof. destruct names; simpl; discriminate. Qed.

Lemma images_loop_length (images_dir : string) (idx : nat) (shs : list Shape) :
  forall img_num extracted written p,
    images_loop images_dir idx shs img_num extracted written = Ok p ->
    length (fst p) = length extracted + length (filter picture_shape shs).
Proof.
  induction shs as [| sh rest IH]; intros img_num extracted written p H.
  - cbn in H. inversion H. cbn. lia.
  - cbn [images_loop] in H. cbn [filter]. unfold picture_shape at 1.
    destruct (shape_type sh) as [t |]; cbn [bind] in H; [ | discriminate ].
    destruct t as [[| [q | q |] | q] |];
      try (now rewrite (IH _ _ _ _ H)).
    repeat (destruct q as [q | q |]; try (now rewrite (IH _ _ _ _ H))).
    destruct (image sh) as [[img |] |]; cbn [bind] in H;
      [ | now rewrite (IH _ _ _ _ H) | discriminate ].
    cbn zeta in H. destruct (img_ext img) as [e |]; cbn [bind] in H;
      [ | discriminate ].
    rewrite (IH _ _ _ _ H), length_app. cbn [length]. lia.
Qed.

Lemma nonempty_filter_existsb (A : Type) (f : A -> bool) (l : list A) :
  filter f l <> [] <-> existsb f l = true.
Proof.
  induction l as [| x l IH]; simpl.
  - split; [congruence | discriminate].
  - destruct (f x); simpl; [split; [reflexivity | discriminate] | exact IH].
Qed.

Lemma length_zero_nil (A : Type) (l : list A) : l <> [] <-> length l <> 0.
Proof. destruct l; simpl; split; congruence. Qed.

(** Images are extracted, when the extraction returns, exactly when
    the slide holds a picture shape. *)
Lemma extract_images_nonempty (slide : Slide) (images_dir : string)
    (idx : nat) (p : list string * list FileWrite) :
  extract_images_from_slide slide images_dir idx = Ok p ->
  (fst p <> [] <-> existsb picture_shape (shapes slide) = true).
Proof.
  intros H. rewrite <- nonempty_filter_existsb, !length_zero_nil.
  unfold extract_images_from_slide in H.
  rewrite (images_loop_length _ _ _ _ _ _ H). reflexivity.
Qed.

Lemma zread_namelist (z : list (string * list byte)) (name : string) :
  zread z name = None <-> str_in name (namelist z) = false.
Proof.
  unfold namelist, str_in.
  induction z as [| [n data] rest IH]; simpl.
  - split; reflexivity.
  - destruct (zread rest name) as [d |].
    + split; [discriminate | ]. intros H. apply orb_false_iff in H.
      destruct H as [_ H]. apply IH in H. discriminate.
    + destruct (String.eqb name n); simpl; [split; discriminate | ].
      split; intros _; [now apply IH | reflexivity].
Qed.

Lemma audio_loop_length (z : list (string * list byte)) (audio_dir : string)
    (idx : nat) (targets : list string) :
  forall saved written,
    length (fst (audio_loop z audio_dir idx targets saved written))
    = length saved
      + length (filter (fun t => str_in t (namelist z)) targets).
Proof.
  induction targets as [| t rest IH]; intros saved written; simpl.
  - lia.
  - destruct (zread z t) as [data |] eqn:E.
    + assert (H : str_in t (namelist z) = true).
      { destruct (str_in t (namelist z)) eqn:F; [reflexivity | ].
        apply zread_namelist in F. congruence. }
      rewrite H, IH, length_app. simpl. lia.
    + apply zread_namelist in E. rewrite E. apply IH.
Qed.

Section Audio.
Variable fromstring : list byte -> list Element.

(** Audio is extracted exactly when a candidate of the manifest is a
    member of the archive. *)
Lemma extract_audio_nonempty (p : Pptx) (audio_dir : string) (idx : nat) :
  fst (extract_audio_from_slide fromstring p audio_dir idx) <> []
  <-> existsb (in_archive p) (_slide_audio_targets fromstring p idx) = true.
Proof.
  rewrite <- nonempty_filter_existsb, !length_zero_nil.
  unfold extract_audio_from_slide.
  destruct (_slide_audio_targets fromstring p idx) as [| t rest] eqn:E.
  - reflexivity.
  - rewrite audio_loop_length. reflexivity.
Qed.

Lemma no_manifest_no_audio (p : Pptx) (audio_dir : string) (idx : nat) :
  str_in (_rels_path_for_slide idx) (namelist (members p)) = false ->
  _slide_audio_targets fromstring p idx = []
  /\ extract_audio_from_slide fromstring p audio_dir idx = ([], []).
Proof.
  intros H. apply zread_namelist in H.
  assert (E : _slide_audio_targets fromstring p idx = []).
  { unfold _slide_audio_targets. now rewrite H. }
  split; [assumption | ].
  unfold extract_audio_from_slide. now rewrite E.
Qed.

(** C6.  For a final slide, and for a clue slide that is kept: the
    record that a returning iteration stores has an images key exactly
    when the slide holds a picture shape and an audio key exactly when
    a candidate path of the slide's manifest is a member of the
    archive, and neither key ever holds an empty list; the iteration
    returns whenever the body and the pictures of the slide can be
    read; and when the manifest of the slide's ordinal is not a member
    of the archive the candidate list and the extracted audio are empty
    and nothing is raised. *)
Theorem media_keys_attached (args : Args) (st : State) (idx : nat)
    (slide : Slide) :
  let pictures := existsb picture_shape (shapes slide) in
  let sounds := existsb (in_archive (pptx args))
                  (_slide_audio_targets fromstring (pptx args) idx) in
  (forall st',
     step fromstring args st idx slide = Ok st' ->
     classify args slide = FinalMarker ->
     exists f,
       st_final st' = Some f
       /\ (fin_images f <> None <-> pictures = true)
       /\ fin_images f <> Some []
       /\ (fin_audio f <> None <-> sounds = true)
       /\ fin_audio f <> Some [])
  /\ (forall st' cr,
        step fromstring args st idx slide = Ok st' ->
        classify args slide = Content ->
        current_round st = Some cr ->
        exists q,
          get_body_text slide = Ok q
          /\ (PyStr.strip (get_slide_title slide) <> "" ->
              q <> "" ->
              get_notes_text slide <> "" ->
              exists clue,
                OrderedDict.get (PyStr.strip (get_slide_title slide))
                  (rounds st' cr)
                = OrderedDict.get (PyStr.strip (get_slide_title slide))
                    (rounds st cr) ++ [clue]
                /\ (images clue <> None <-> pictures = true)
                /\ images clue <> Some []
                /\ (audio clue <> None <-> sounds = true)
                /\ audio clue <> Some []))
  /\ (body_ok slide = true -> pictures_ok slide = true ->
      exists st', step fromstring args st idx slide = Ok st')
  /\ (str_in (_rels_path_for_slide idx) (namelist (members (pptx args)))
      = false ->
      _slide_audio_targets fromstring (pptx args) idx = []
      /\ extract_audio_from_slide fromstring (pptx args) (audio_dir args) idx
         = ([], [])).
Proof.
  intros pictures sounds.
  assert (Hi : forall kind p,
             extract_images_from_slide slide (images_dir args) idx = Ok p ->
             (media_key (assets_root args) kind
                (fst (extracted_images slide (images_dir args) idx))
              <> None <-> pictures = true)).
  { intros kind p Hp. rewrite media_key_none. unfold extracted_images.
    rewrite Hp. cbn [try_except].
    exact (extract_images_nonempty slide (images_dir args) idx Hp). }
  assert (Ha : forall kind,
             media_key (assets_root args) kind
               (fst (extract_audio_from_slide fromstring (pptx_path args)
                       (audio_dir args) idx))
             <> None <-> sounds = true)
    by (intros kind; rewrite media_key_none; apply extract_audio_nonempty).
  split; [ | split; [ | split ] ].
  - intros st' Hs Hk.
    destruct (get_body_text slide) as [q |] eqn:Hq.
    2: { rewrite step_final_marker_raise in Hs by assumption. discriminate. }
    rewrite (step_final_marker fromstring args st idx slide Hk Hq) in Hs.
    destruct (extract_images_from_slide slide (images_dir args) idx)
      as [p |] eqn:Hp; [ | discriminate ].
    inversion Hs; subst st'.
    exists (final_for fromstring args idx slide q).
    split; [reflexivity | ]. cbn [final_for fin_images fin_audio].
    repeat split; try apply (Hi _ p eq_refl); try apply Ha;
      apply media_key_not_empty.
  - intros st' cr Hs Hk Hcr.
    destruct (get_body_text slide) as [q |] eqn:Hq.
    2: { rewrite (step_content_raise fromstring args st idx slide Hk Hcr Hq)
           in Hs. discriminate. }
    exists q. split; [reflexivity | ]. intros Hc Hq' Hn.
    rewrite (step_content fromstring args st idx slide Hk Hcr Hq) in Hs.
    apply truthy_true_iff in Hc, Hq', Hn. rewrite Hc, Hq', Hn in Hs.
    cbn [andb] in Hs.
    destruct (extract_images_from_slide slide (images_dir args) idx)
      as [p |] eqn:Hp; [ | discriminate ].
    inversion Hs; subst st'.
    exists (clue_for fromstring args idx slide q).
    rewrite rounds_set_same.
    split; [apply add_clue_get_same | ]. cbn [clue_for images audio].
    repeat split; try apply (Hi _ p eq_refl); try apply Ha;
      apply media_key_not_empty.
  - intros Hb Hp. now apply step_total.
  - apply no_manifest_no_audio.
Qed.

End Audio.

Lemma media_keys_attached_witness :
  exists st' clue,
    step sample_manifest (default_args audio_deck) round1_state 2
      picture_slide = Ok st'
    /\ OrderedDict.get "Art" (rounds st' round1) = [clue]
    /\ images clue <> None /\ audio clue <> None.
Proof.
  pose proof (@media_keys_attached sample_manifest (default_args audio_deck)
                round1_state 2 picture_slide) as T.
  cbv zeta in T. destruct T as (_ & Hc & Hrun & _).
  destruct (Hrun eq_refl eq_refl) as [st' Hs].
  destruct (Hc st' round1 Hs eq_refl eq_refl) as (q & Hq & Hkept).
  destruct Hkept as (clue & Hg & [_ Hi] & _ & [_ Ha] & _);
    try discriminate.
  { inversion Hq. discriminate. }
  exists st', clue.
  split; [exact Hs | split; [exact Hg | split; [apply Hi | apply Ha]]];
    reflexivity.
Defined.

(** ** Normalisation of manifest targets *)

Lemma lower_upper_char (c : ascii) :
  PyStr.lower_char (PyStr.upper_char c) = PyStr.lower_char c.
Proof. destruct c as [[] [] [] [] [] [] [] []]; reflexivity. Qed.

Lemma lower_upper (s : string) : PyStr.lower (PyStr.upper s) = PyStr.lower s.
Proof.
  unfold PyStr.lower, PyStr.upper.
  induction s as [| c s IH]; simpl; [reflexivity | ].
  now rewrite lower_upper_char, IH.
Qed.

Lemma prefix_nil (s : string) : String.prefix "" s = true.
Proof. destruct s; reflexivity. Qed.

Lemma prefix_dot (c : ascii) (s : string) :
  String.prefix "." (String c s) = Ascii.eqb c ".".
Proof.
  change (String.prefix "." (String c s))
    with (if ascii_dec "." c then String.prefix "" s else false).
  rewrite prefix_nil.
  destruct (ascii_dec "." c) as [<- | H]; [reflexivity | ].
  symmetry. apply Ascii.eqb_neq. congruence.
Qed.

Lemma contains_dotdot_cons (c : ascii) (s : string) :
  PyStr.contains ".." (String c s)
  = (Ascii.eqb c "." && String.prefix "." s) || PyStr.contains ".." s.
Proof.
  change (PyStr.contains ".." (String c s))
    with ((if ascii_dec "." c then String.prefix "." s else false)
          || PyStr.contains ".." s).
  destruct (ascii_dec "." c) as [<- | H]; [reflexivity | ].
  assert (E : Ascii.eqb c "." = false) by (apply Ascii.eqb_neq; congruence).
  now rewrite E.
Qed.

Lemma remove_dotdot_two (c d : ascii) (r : string) :
  PyStr.remove_dotdot (String c (String d r))
  = if Ascii.eqb c "." && Ascii.eqb d "."
    then PyStr.remove_dotdot r
    else String c (PyStr.remove_dotdot (String d r)).
Proof. reflexivity. Qed.

(** No occurrence of ".." is left, and a leading dot of the result was a
    leading dot of the argument. *)
Lemma remove_dotdot_bounded (n : nat) :
  forall s, String.length s <= n ->
    PyStr.contains ".." (PyStr.remove_dotdot s) = false
    /\ (String.prefix "." (PyStr.remove_dotdot s) = true ->
        String.prefix "." s = true).
Proof.
  induction n as [| n IH]; intros s Hlen.
  - destruct s; [split; [reflexivity | auto] | simpl in Hlen; lia].
  - destruct s as [| c [| d r]].
    + split; [reflexivity | auto].
    + change (PyStr.remove_dotdot (String c "")) with (String c "").
      split; [ | auto ].
      rewrite contains_dotdot_cons. simpl. now rewrite andb_false_r.
    + rewrite remove_dotdot_two.
      destruct (Ascii.eqb c "." && Ascii.eqb d ".") eqn:E.
      * apply andb_true_iff in E. destruct E as [Ec _].
        destruct (IH r) as [Hr _]; [simpl in *; lia | ].
        split; [assumption | ]. intros _. now rewrite prefix_dot.
      * destruct (IH (String d r)) as [Hr Hp]; [simpl in *; lia | ].
        split.
        -- rewrite contains_dotdot_cons, Hr, orb_false_r.
           destruct (Ascii.eqb c ".") eqn:Ec; [ | reflexivity ].
           cbn [andb] in *.
           destruct (String.prefix "." (PyStr.remove_dotdot (String d r)))
             eqn:F; [ | reflexivity ].
           specialize (Hp eq_refl). rewrite prefix_dot in Hp.
           rewrite Hp in E. discriminate.
        -- now rewrite !prefix_dot.
Qed.

Lemma remove_dotdot_clean (s : string) :
  PyStr.contains ".." (PyStr.remove_dotdot s) = false.
Proof. now apply (remove_dotdot_bounded (n := String.length s)). Qed.

Lemma lstrip_slash_clean (s : string) :
  PyStr.contains ".." s = false ->
  PyStr.contains ".." (PyStr.lstrip_slash s) = false.
Proof.
  induction s as [| c s IH]; intros H; [reflexivity | ]. simpl PyStr.lstrip_slash.
  destruct (Ascii.eqb c "/"); [ | assumption ].
  apply IH. rewrite contains_dotdot_cons in H.
  now apply orb_false_iff in H.
Qed.

Lemma lstrip_slash_no_slash (s : string) :
  PyStr.startswith (PyStr.lstrip_slash s) "/" = false.
Proof.
  unfold PyStr.startswith.
  induction s as [| c s IH]; [reflexivity | ]. simpl PyStr.lstrip_slash.
  destruct (Ascii.eqb c "/") eqn:E; [assumption | ].
  change (String.prefix "/" (String c s))
    with (if ascii_dec "/" c then String.prefix "" s else false).
  rewrite prefix_nil.
  destruct (ascii_dec "/" c) as [<- | H]; [discriminate | reflexivity].
Qed.

(** The shape of a normalised target. *)
Lemma normalize_target_shape (target : string) :
  let stripped := PyStr.lstrip_slash
                    (PyStr.remove_dotdot (PyStr.replace_backslash target)) in
  PyStr.startswith stripped "/" = false
  /\ PyStr.contains ".." (normalize_target target) = false
  /\ PyStr.startswith (normalize_target target) "ppt/" = true
  /\ normalize_target target
     = if PyStr.startswith stripped "ppt/" then stripped
       else ("ppt/" ++ stripped)%string.
Proof.
  intros stripped.
  assert (Hclean : PyStr.contains ".." stripped = false)
    by (apply lstrip_slash_clean, remove_dotdot_clean).
  split; [apply lstrip_slash_no_slash | ].
  unfold normalize_target. fold stripped.
  destruct (PyStr.startswith stripped "ppt/") eqn:E; cbn [negb].
  - split; [assumption | split; [assumption | reflexivity]].
  - change ("ppt/" ++ stripped)%string
      with (String "p" (String "p" (String "t" (String "/" stripped)))).
    split; [ | split; [ | reflexivity]].
    + rewrite !contains_dotdot_cons. exact Hclean.
    + unfold PyStr.startswith.
      change (String.prefix "ppt/"
                (String "p" (String "p" (String "t" (String "/" stripped)))))
        with (String.prefix "" stripped).
      apply prefix_nil.
Qed.

Lemma audio_path_case (path : string) :
  audio_path (PyStr.upper path) = audio_path path.
Proof. unfold audio_path. now rewrite lower_upper. Qed.

(** A string without ".." is left as it is. *)
Lemma remove_dotdot_id (s : string) :
  PyStr.contains ".." s = false -> PyStr.remove_dotdot s = s.
Proof.
  induction s as [| c s IH]; intros H; [reflexivity | ].
  destruct s as [| d r]; [reflexivity | ].
  rewrite remove_dotdot_two.
  rewrite contains_dotdot_cons, prefix_dot in H.
  apply orb_false_iff in H. destruct H as [H1 H2].
  rewrite H1. now rewrite IH.
Qed.

(** The usual form of a media target, relative to the slide folder. *)
Lemma normalize_parent_media (name : string) :
  PyStr.contains ".." (PyStr.replace_backslash name) = false ->
  normalize_target ("../media/" ++ name)
  = ("ppt/media/" ++ PyStr.replace_backslash name)%string.
Proof.
  intros H. unfold normalize_target.
  change (PyStr.replace_backslash ("../media/" ++ name))
    with (String "." (String "."
            ("/media/" ++ PyStr.replace_backslash name)))%string.
  rewrite remove_dotdot_two. cbn [Ascii.eqb Bool.eqb andb].
  rewrite remove_dotdot_id.
  - reflexivity.
  - change ("/media/" ++ PyStr.replace_backslash name)%string
      with (String "/" (String "m" (String "e" (String "d" (String "i"
             (String "a" (String "/" (PyStr.replace_backslash name)))))))).
    rewrite !contains_dotdot_cons. exact H.
Qed.

(** The leftmost occurrence of ".." is the one deleted first. *)
Lemma remove_dotdot_leftmost (a b : string) :
  PyStr.contains ".." (a ++ ".") = false ->
  PyStr.remove_dotdot (a ++ ".." ++ b) = (a ++ PyStr.remove_dotdot b)%string.
Proof.
  induction a as [| c a IH]; intros H; [reflexivity | ].
  change ((String c a ++ ".")%string) with (String c (a ++ ".")) in H.
  rewrite contains_dotdot_cons in H. apply orb_false_iff in H.
  destruct H as [Hc Ha].
  change ((String c a ++ ".." ++ b)%string) with (String c (a ++ ".." ++ b)).
  change ((String c a ++ PyStr.remove_dotdot b)%string)
    with (String c (a ++ PyStr.remove_dotdot b)).
  destruct a as [| d a'].
  - change (String c ("" ++ ".." ++ b)%string)
      with (String c (String "." (String "." b))).
    rewrite remove_dotdot_two.
    change (("" ++ ".")%string) with "." in Hc.
    change (String.prefix "." ".") with true in Hc.
    rewrite andb_true_r in Hc. rewrite Hc. cbn [andb].
    change (PyStr.remove_dotdot (String "." (String "." b)))
      with (PyStr.remove_dotdot b).
    reflexivity.
  - change (String c (String d a' ++ ".." ++ b)%string)
      with (String c (String d (a' ++ ".." ++ b)%string)).
    rewrite remove_dotdot_two.
    change ((String d a' ++ ".")%string) with (String d (a' ++ ".")) in Hc.
    rewrite prefix_dot in Hc. rewrite Hc.
    f_equal. exact (IH Ha).
Qed.

Lemma lstrip_slash_split (s : string) :
  exists k, s = (slashes k ++ PyStr.lstrip_slash s)%string.
Proof.
  induction s as [| c s IH]; [now exists 0 | ].
  cbn [PyStr.lstrip_slash]. destruct (Ascii.eqb c "/") eqn:E.
  - apply Ascii.eqb_eq in E. subst c. destruct IH as [k Hk].
    exists (S k). cbn [slashes append]. now rewrite <- Hk.
  - now exists 0.
Qed.

(** *** The extension test *)

Lemma no_slash_app (a b : string) :
  no_slash (a ++ b) = no_slash a && no_slash b.
Proof.
  induction a as [| c a IH]; [reflexivity | ].
  cbn [append no_slash]. now rewrite IH, andb_assoc.
Qed.

Lemma endswith_cons (c : ascii) (r p : string) :
  PyStr.endswith (String c r) p
  = String.eqb (String c r) p || PyStr.endswith r p.
Proof. reflexivity. Qed.

Lemma endswith_app_self (u p : string) : PyStr.endswith (u ++ p) p = true.
Proof.
  induction u as [| c u IH].
  - destruct p; cbn [append PyStr.endswith]; now rewrite String.eqb_refl.
  - cbn [append]. rewrite endswith_cons, IH. apply orb_true_r.
Qed.

Lemma endswith_app_l (x d p : string) :
  PyStr.endswith d p = true -> PyStr.endswith (x ++ d) p = true.
Proof.
  intros H. induction x as [| c x IH]; [exact H | ].
  cbn [append]. rewrite endswith_cons, IH. apply orb_true_r.
Qed.

Lemma after_last_slash_split (s : string) :
  forall cur u,
    cur = (u ++ s)%string -> no_slash u = true ->
    exists d,
      cur = (d ++ OsPath.after_last_slash s cur)%string
      /\ (d = "" \/ PyStr.endswith d "/" = true)
      /\ no_slash (OsPath.after_last_slash s cur) = true.
Proof.
  induction s as [| c s IH]; intros cur u Hcur Hu.
  - cbn [OsPath.after_last_slash]. exists "". split; [reflexivity | ].
    split; [now left | ]. subst cur. rewrite no_slash_app, Hu. reflexivity.
  - cbn [OsPath.after_last_slash]. destruct (Ascii.eqb c "/") eqn:E.
    + apply Ascii.eqb_eq in E. subst c.
      destruct (IH s "" eq_refl eq_refl) as (d & Hd & Hdir & Hns).
      exists (u ++ String "/" d)%string. split; [ | split ].
      * rewrite string_app_assoc. cbn [append]. rewrite <- Hd. exact Hcur.
      * right. destruct Hdir as [-> | Hdir].
        -- apply endswith_app_self.
        -- change (u ++ String "/" d)%string with (u ++ ("/" ++ d))%string.
           rewrite <- string_app_assoc. now apply endswith_app_l.
      * exact Hns.
    + apply (IH cur (u ++ String c "")%string).
      * rewrite string_app_assoc. exact Hcur.
      * rewrite no_slash_app, Hu. cbn [no_slash]. now rewrite E.
Qed.

(** A path is a directory part, empty or ending in a slash, followed by
    its base name, which holds no slash. *)
Lemma basename_split (p : string) :
  exists d,
    p = (d ++ OsPath.basename p)%string
    /\ (d = "" \/ PyStr.endswith d "/" = true)
    /\ no_slash (OsPath.basename p) = true.
Proof. unfold OsPath.basename. now apply (@after_last_slash_split p p ""). Qed.

Lemma after_last_slash_no_slash (s cur : string) :
  no_slash s = true -> OsPath.after_last_slash s cur = cur.
Proof.
  induction s as [| c s IH]; intros H; [reflexivity | ].
  cbn [no_slash] in H. apply andb_true_iff in H. destruct H as [Hc Hs].
  cbn [OsPath.after_last_slash].
  destruct (Ascii.eqb c "/"); [discriminate | now apply IH].
Qed.

Lemma after_last_slash_dir (base : string) :
  no_slash base = true ->
  forall d cur,
    PyStr.endswith d "/" = true ->
    OsPath.after_last_slash (d ++ base) cur = base.
Proof.
  intros Hb. induction d as [| c d IH]; intros cur H; [discriminate | ].
  cbn [append OsPath.after_last_slash].
  destruct d as [| c' d'].
  - rewrite endswith_cons in H. cbn [PyStr.endswith] in H.
    change (String.eqb "" "/") with false in H.
    rewrite !orb_false_r in H.
    change (String.eqb (String c "") "/")
      with (Ascii.eqb c "/" && String.eqb "" "") in H.
    change (String.eqb "" "") with true in H. rewrite andb_true_r in H.
    rewrite H. cbn [append]. now apply after_last_slash_no_slash.
  - rewrite endswith_cons in H.
    change (String.eqb (String c (String c' d')) "/")
      with (Ascii.eqb c "/" && String.eqb (String c' d') "") in H.
    change (String.eqb (String c' d') "") with false in H.
    rewrite andb_false_r in H. cbn [orb] in H.
    destruct (Ascii.eqb c "/"); now apply IH.
Qed.

Lemma basename_of_split (d base : string) :
  d = "" \/ PyStr.endswith d "/" = true ->
  no_slash base = true ->
  OsPath.basename (d ++ base) = base.
Proof.
  intros [-> | Hd] Hb; unfold OsPath.basename.
  - now apply after_last_slash_no_slash.
  - now apply after_last_slash_dir.
Qed.

Lemma ext_scan_no_dot (e : string) (seen : bool) (cur : string) :
  no_dot e = true -> OsPath.ext_scan e seen cur = cur.
Proof.
  revert seen. induction e as [| c e IH]; intros seen H; [reflexivity | ].
  cbn [no_dot] in H. apply andb_true_iff in H. destruct H as [Hc He].
  cbn [OsPath.ext_scan].
  destruct (Ascii.eqb c "."); [discriminate | now apply IH].
Qed.

Lemma ext_scan_found (e : string) :
  no_dot e = true ->
  forall stem seen cur,
    seen = true \/ all_dots stem = false ->
    OsPath.ext_scan (stem ++ String "." e) seen cur = String "." e.
Proof.
  intros He. induction stem as [| c stem IH]; intros seen cur H.
  - destruct H as [-> | H]; [ | discriminate ].
    change (OsPath.ext_scan ("" ++ String "." e) true cur)
      with (OsPath.ext_scan e true (String "." e)).
    now apply ext_scan_no_dot.
  - cbn [append OsPath.ext_scan]. destruct (Ascii.eqb c ".") eqn:E.
    + apply IH. destruct H as [H | H]; [now left | right].
      cbn [all_dots] in H. now rewrite E in H.
    + apply IH. now left.
Qed.

Lemma ext_scan_cases (s : string) :
  forall seen cur,
    OsPath.ext_scan s seen cur = cur
    \/ OsPath.ext_scan s seen cur = ""
    \/ exists stem,
         s = (stem ++ OsPath.ext_scan s seen cur)%string
         /\ (seen = true \/ all_dots stem = false).
Proof.
  induction s as [| c s IH]; intros seen cur; [now left | ].
  cbn [OsPath.ext_scan]. destruct (Ascii.eqb c ".") eqn:E.
  - destruct (IH seen (if seen then String c s else "")) as [H | [H | H]].
    + destruct seen.
      * right. right. exists "". rewrite H. split; [reflexivity | now left].
      * right. now left.
    + right. now left.
    + right. right. destruct H as (stem & Hs & Hd).
      exists (String c stem). split.
      * cbn [append]. now rewrite <- Hs.
      * destruct Hd as [Hd | Hd]; [now left | right].
        cbn [all_dots]. now rewrite E.
  - destruct (IH true cur) as [H | [H | H]].
    + now left.
    + right. now left.
    + right. right. destruct H as (stem & Hs & _).
      exists (String c stem). split.
      * cbn [append]. now rewrite <- Hs.
      * right. cbn [all_dots]. now rewrite E.
Qed.

Lemma audio_ext_shape (ext : string) :
  In ext AUDIO_EXTS ->
  exists e, ext = String "." e /\ no_dot e = true /\ no_slash ext = true.
Proof.
  intros H. unfold AUDIO_EXTS in H.
  repeat (destruct H as [<- | H];
          [eexists; split; [reflexivity | split; reflexivity] | ]).
  destruct H.
Qed.

(** The extension test passes exactly on the paths whose last
    component, in lower case, is a stem that is not made of dots only
    followed by an extension of the allowlist. *)
Lemma audio_path_iff (path : string) :
  audio_path path = true
  <-> exists dir stem ext,
        PyStr.lower path = (dir ++ stem ++ ext)%string
        /\ (dir = "" \/ PyStr.endswith dir "/" = true)
        /\ no_slash (stem ++ ext) = true
        /\ all_dots stem = false
        /\ In ext AUDIO_EXTS.
Proof.
  unfold audio_path. rewrite str_in_In. unfold OsPath.splitext_ext. split.
  - intros H.
    destruct (basename_split (PyStr.lower path)) as (d & Hp & Hd & Hns).
    destruct (ext_scan_cases (OsPath.basename (PyStr.lower path)) false "")
      as [E | [E | (stem & Hs & Hst)]].
    + rewrite E in H. unfold AUDIO_EXTS in H.
      repeat (destruct H as [H | H]; [discriminate | ]). destruct H.
    + rewrite E in H. unfold AUDIO_EXTS in H.
      repeat (destruct H as [H | H]; [discriminate | ]). destruct H.
    + exists d, stem,
        (OsPath.ext_scan (OsPath.basename (PyStr.lower path)) false "").
      split; [now rewrite <- Hs | ]. split; [exact Hd | ].
      split; [now rewrite <- Hs | ].
      split; [ | exact H ].
      destruct Hst as [Hst | Hst]; [discriminate | exact Hst].
  - intros (d & stem & ext & Hp & Hd & Hns & Hst & Hin).
    rewrite Hp, (basename_of_split _ Hd Hns).
    destruct (audio_ext_shape Hin) as (e & -> & He & _).
    rewrite (@ext_scan_found e He stem false ""); [exact Hin | now right].
Qed.

(** ** Candidate paths of a manifest *)

Section Targets.
Variable fromstring : list byte -> list Element.

Lemma targets_loop_cons (rel : Element) (rest : list Element)
    (targets : list string) :
  targets_loop (rel :: rest) targets
  = targets_loop rest (targets ++ candidate rel).
Proof.
  unfold candidate, media_relationship, audio_path. cbn [targets_loop].
  destruct (PyStr.endswith (PyStr.lower (tag rel)) "relationship");
    cbn [negb andb]; [ | now rewrite app_nil_r ].
  destruct (PyStr.contains "media/" (attrib_get (attrib rel) "Target"));
    cbn [negb]; [ | now rewrite app_nil_r ].
  destruct (str_in
              (OsPath.splitext_ext
                 (PyStr.lower
                    (normalize_target (attrib_get (attrib rel) "Target"))))
              AUDIO_EXTS); [reflexivity | now rewrite app_nil_r].
Qed.

Lemma targets_loop_candidates (root : list Element) :
  forall targets,
    targets_loop root targets = targets ++ flat_map candidate root.
Proof.
  induction root as [| rel rest IH]; intros targets.
  - cbn [targets_loop flat_map]. now rewrite app_nil_r.
  - rewrite targets_loop_cons, IH. cbn [flat_map]. now rewrite app_assoc.
Qed.

(** C5, counterexample.  Parent-traversal segments are not collapsed:
    a target that goes through a folder and back keeps the folder and a
    doubled slash, and two dots inside a file name are taken out of the
    name.  The paths then differ from the described ones, and the parts
    they should name, though in the archive, are not extracted. *)
Lemma parent_segments_counterexample :
  normalize_target "ppt/slides/../media/a.ogg" = "ppt/slides//media/a.ogg"
  /\ described_normalize "ppt/slides/../media/a.ogg" = "ppt/media/a.ogg"
  /\ normalize_target "../media/my..song.mp3" = "ppt/media/mysong.mp3"
  /\ described_normalize "../media/my..song.mp3" = "ppt/media/my..song.mp3"
  /\ _slide_audio_targets mixed_manifest mixed_deck 2
     <> flat_map (fun rel =>
                    if media_relationship rel
                    then let norm := described_normalize
                                       (attrib_get (attrib rel) "Target") in
                         if audio_path norm then [norm] else []
                    else [])
          (mixed_manifest [x3c])
  /\ in_archive mixed_deck "ppt/media/my..song.mp3" = true
  /\ in_archive mixed_deck "ppt/media/a.ogg" = true
  /\ fst (extract_audio_from_slide mixed_manifest mixed_deck "assets/audio" 2)
     = ["slide002_media1.M4A"; "slide002_b.wav"; "slide002_e.aac"].
Proof. repeat split. discriminate. Qed.

(** C5, amended.  When the manifest of the slide's ordinal is in the
    archive, the candidate paths are, entry by entry and in order, what
    the entries contribute: a path is a candidate exactly when it is
    the normalised target of an entry of relationship kind whose target
    contains "media/", and its extension is on the allowlist.  The
    normalised target is the target with backslashes turned into
    slashes, every occurrence of ".." deleted, then leading slashes
    stripped, prefixed with "ppt/" unless it starts with it already;
    occurrences of ".." are found from left to right, wherever they
    stand, and a string without ".." is kept, so the result holds no
    "..", has no leading slash and starts with "ppt/".  The extension
    test passes exactly when the lower-cased path ends in one of
    .mp3 .m4a .wav .aac .ogg within its last component, after a
    character of that component that is not a dot; the case of the
    letters of an ASCII path does not matter.  A target "../media/NAME"
    whose NAME holds no ".." becomes "ppt/media/NAME". *)
Theorem audio_candidates (p : Pptx) (idx : nat) (xml : list byte) :
  zread (members p) (_rels_path_for_slide idx) = Some xml ->
  _slide_audio_targets fromstring p idx
  = flat_map candidate (fromstring xml)
  /\ (forall t,
        In t (_slide_audio_targets fromstring p idx)
        <-> exists rel,
              In rel (fromstring xml)
              /\ PyStr.endswith (PyStr.lower (tag rel)) "relationship" = true
              /\ PyStr.contains "media/" (attrib_get (attrib rel) "Target")
                 = true
              /\ t = normalize_target (attrib_get (attrib rel) "Target")
              /\ audio_path t = true)
  /\ (forall target,
        let deleted := PyStr.remove_dotdot (PyStr.replace_backslash target) in
        let stripped := PyStr.lstrip_slash deleted in
        normalize_target target
        = (if PyStr.startswith stripped "ppt/" then stripped
           else ("ppt/" ++ stripped)%string)
        /\ PyStr.contains ".." deleted = false
        /\ (exists k, deleted = (slashes k ++ stripped)%string)
        /\ PyStr.startswith stripped "/" = false
        /\ PyStr.contains ".." (normalize_target target) = false
        /\ PyStr.startswith (normalize_target target) "ppt/" = true)
  /\ (forall a b,
        PyStr.contains ".." (a ++ ".") = false ->
        PyStr.remove_dotdot (a ++ ".." ++ b)
        = (a ++ PyStr.remove_dotdot b)%string)
  /\ (forall s, PyStr.contains ".." s = false -> PyStr.remove_dotdot s = s)
  /\ (forall path,
        audio_path path = true
        <-> exists dir stem ext,
              PyStr.lower path = (dir ++ stem ++ ext)%string
              /\ (dir = "" \/ PyStr.endswith dir "/" = true)
              /\ no_slash (stem ++ ext) = true
              /\ all_dots stem = false
              /\ In ext AUDIO_EXTS)
  /\ (forall path,
        ascii_text path = true ->
        audio_path (PyStr.upper path) = audio_path path)
  /\ (forall name,
        PyStr.contains ".." (PyStr.replace_backslash name) = false ->
        normalize_target ("../media/" ++ name)
        = ("ppt/media/" ++ PyStr.replace_backslash name)%string).
Proof.
  intros Hz.
  assert (H1 : _slide_audio_targets fromstring p idx
               = flat_map candidate (fromstring xml)).
  { unfold _slide_audio_targets. rewrite Hz.
    now rewrite targets_loop_candidates. }
  split; [exact H1 | ].
  split; [ | split; [ | split; [exact remove_dotdot_leftmost | ] ] ].
  - intros t. rewrite H1, in_flat_map. split.
    + intros (rel & Hin & Ht). exists rel. split; [exact Hin | ].
      unfold candidate, media_relationship in Ht.
      destruct (PyStr.endswith (PyStr.lower (tag rel)) "relationship");
        [ | destruct Ht ].
      destruct (PyStr.contains "media/" (attrib_get (attrib rel) "Target"));
        [ | destruct Ht ].
      cbn [andb] in Ht. cbn zeta in Ht.
      destruct (audio_path
                  (normalize_target (attrib_get (attrib rel) "Target")))
        eqn:Ha; [ | destruct Ht ].
      destruct Ht as [<- | []]. auto.
    + intros (rel & Hin & Hk & Hm & -> & Ha). exists rel.
      split; [exact Hin | ].
      unfold candidate, media_relationship. rewrite Hk, Hm. cbn [andb].
      cbn zeta. rewrite Ha. now left.
  - intros target deleted stripped.
    destruct (normalize_target_shape target) as (Hs & Hc & Hr & He).
    split; [exact He | ].
    split; [apply remove_dotdot_clean | ].
    split; [apply lstrip_slash_split | ].
    split; [exact Hs | ]. split; [exact Hc | exact Hr].
  - split; [exact remove_dotdot_id | ].
    split; [exact audio_path_iff | ].
    split; [intros path _; apply audio_path_case | ].
    exact normalize_parent_media.
Qed.

End Targets.

Lemma audio_candidates_witness :
  zread (members mixed_deck) (_rels_path_for_slide 2) = Some [x3c]
  /\ _slide_audio_targets mixed_manifest mixed_deck 2
     = ["ppt/media/media1.M4A"; "ppt/media/mysong.mp3";
        "ppt/slides//media/a.ogg"; "ppt/media/b.wav"; "ppt/media/e.aac"]
  /\ ~ In "ppt/media/.mp3" (_slide_audio_targets mixed_manifest mixed_deck 2).
Proof.
  assert (H0 : zread (members mixed_deck) (_rels_path_for_slide 2)
               = Some [x3c]) by reflexivity.
  split; [exact H0 | ].
  destruct (@audio_candidates mixed_manifest mixed_deck 2 [x3c] H0)
    as [H _].
  rewrite H. split; [reflexivity | ].
  cbv. intros F. repeat (destruct F as [F | F]; [discriminate | ]).
  exact F.
Defined.

(** ** Order of categories and clues *)

Lemma replay_app (a b : list (string * Clue)) (d : OrderedDict.t Clue) :
  replay (a ++ b) d = replay b (replay a d).
Proof. unfold replay. apply fold_left_app. Qed.

Lemma in_round_app (k : RoundKey) (a b : list (RoundKey * (string * Clue))) :
  in_round k (a ++ b) = in_round k a ++ in_round k b.
Proof. unfold in_round. now rewrite filter_app, map_app. Qed.

Lemma replay_keys (evs : list (string * Clue)) :
  forall d,
    OrderedDict.keys (replay evs d)
    = OrderedDict.keys d
      ++ first_occurrences (OrderedDict.keys d) (map fst evs).
Proof.
  induction evs as [| [c x] evs IH]; intros d.
  - cbn. now rewrite app_nil_r.
  - change (replay ((c, x) :: evs) d) with (replay evs (add_clue c x d)).
    rewrite IH, add_clue_keys. cbn [map fst first_occurrences].
    rewrite <- mem_keys.
    destruct (OrderedDict.mem c d); [reflexivity | ].
    now rewrite <- app_assoc.
Qed.

Lemma replay_get (c : string) (evs : list (string * Clue)) :
  forall d,
    OrderedDict.get c (replay evs d)
    = OrderedDict.get c d ++ clues_titled c evs.
Proof.
  induction evs as [| [c' x] evs IH]; intros d.
  - cbn. now rewrite app_nil_r.
  - change (replay ((c', x) :: evs) d) with (replay evs (add_clue c' x d)).
    rewrite IH. unfold clues_titled. cbn [filter fst].
    destruct (String.eqb_spec c c') as [<- | Hne].
    + rewrite add_clue_get_same. cbn [map snd]. now rewrite <- app_assoc.
    + now rewrite add_clue_get_other.
Qed.

Lemma add_clue_NoDup (c : string) (x : Clue) (d : OrderedDict.t Clue) :
  NoDup (OrderedDict.keys d) -> NoDup (OrderedDict.keys (add_clue c x d)).
Proof.
  intros H. rewrite add_clue_keys, mem_keys.
  destruct (str_in c (OrderedDict.keys d)) eqn:E; [assumption | ].
  apply NoDup_app; [assumption | repeat constructor; intros [] | ].
  intros y Hy [<- | []]. apply str_in_In in Hy. congruence.
Qed.

Lemma replay_NoDup (evs : list (string * Clue)) :
  forall d,
    NoDup (OrderedDict.keys d) -> NoDup (OrderedDict.keys (replay evs d)).
Proof.
  induction evs as [| [c x] evs IH]; intros d H; [assumption | ].
  change (replay ((c, x) :: evs) d) with (replay evs (add_clue c x d)).
  now apply IH, add_clue_NoDup.
Qed.

Lemma get_In (c : string) (l : list Clue) (d : OrderedDict.t Clue) :
  NoDup (OrderedDict.keys d) -> In (c, l) d -> OrderedDict.get c d = l.
Proof.
  unfold OrderedDict.keys.
  induction d as [| [c' l'] d IH]; intros Hnd Hin; [destruct Hin | ].
  cbn [map fst] in Hnd. inversion Hnd as [| ? ? Hnotin Hnd']; subst.
  cbn [OrderedDict.get]. destruct Hin as [E | Hin].
  - inversion E; subst. now rewrite String.eqb_refl.
  - destruct (String.eqb_spec c c') as [-> | _]; [ | now apply IH ].
    exfalso. apply Hnotin. change c' with (fst (c', l)). now apply in_map.
Qed.

Section Order.
Variable fromstring : list byte -> list Element.
Variable args : Args.

(** An iteration moves to the next section and replays the contribution
    of its slide. *)
Lemma step_contribution (st st' : State) (idx : nat) (slide : Slide) :
  step fromstring args st idx slide = Ok st' ->
  current_round st' = next_section args (current_round st) slide
  /\ forall k,
       rounds st' k
       = replay (in_round k (contribution fromstring args (current_round st)
                               idx slide))
           (rounds st k).
Proof.
  intros H. apply step_inv in H. unfold next_section, contribution.
  destruct (classify args slide).
  - subst. split; [reflexivity | now intros []].
  - subst. split; [reflexivity | now intros []].
  - destruct H as (q & _ & ->). split; [reflexivity | now intros []].
  - destruct (current_round st) as [cr |] eqn:Hc.
    + destruct H as (q & Hq & ->). rewrite Hq.
      destruct (PyStr.truthy (PyStr.strip (get_slide_title slide))
                && PyStr.truthy q && PyStr.truthy (get_notes_text slide)).
      * rewrite current_set_rounds. split; [assumption | ].
        intros k. destruct cr, k; reflexivity.
      * split; [assumption | reflexivity].
    + subst. split; [assumption | reflexivity].
Qed.

Lemma loop_encountered (slides : list Slide) :
  forall idx st st',
    loop fromstring args slides idx st = Ok st' ->
    forall k,
      rounds st' k
      = replay (in_round k (encountered fromstring args slides idx
                              (current_round st)))
          (rounds st k).
Proof.
  induction slides as [| s rest IH]; intros idx st st' H k.
  - cbn in H. inversion H. reflexivity.
  - cbn [loop] in H.
    destruct (step fromstring args st idx s) as [st1 |] eqn:E;
      cbn [bind] in H; [ | discriminate ].
    destruct (@step_contribution st st1 idx s E) as [Hc Hr].
    cbn [encountered]. rewrite in_round_app, replay_app, <- Hr, <- Hc.
    now apply IH.
Qed.

Lemma categories_in_encounter_order (d : OrderedDict.t Clue)
    (evs : list (string * Clue)) :
  d = replay evs [] -> in_encounter_order (categories_of d) evs.
Proof.
  intros Hd.
  assert (Hk : map cat_name (categories_of d) = OrderedDict.keys d).
  { unfold categories_of, OrderedDict.keys. rewrite map_map. reflexivity. }
  assert (Hnd : NoDup (OrderedDict.keys d))
    by (rewrite Hd; apply replay_NoDup; constructor).
  unfold in_encounter_order. rewrite Hk. split; [ | split ].
  - rewrite Hd, replay_keys. reflexivity.
  - assumption.
  - intros cat Hin. unfold categories_of in Hin. apply in_map_iff in Hin.
    destruct Hin as ([c l] & <- & Hin). cbn [cat_name clues fst snd].
    rewrite <- (@get_In c l d Hnd Hin). rewrite Hd, replay_get. reflexivity.
Qed.

(** C3.  In the document a run returns, the categories of each round
    are named in the order in which the first kept clue slide of each
    title was met in that round, their names are pairwise distinct, and
    each category holds, in the order met, exactly the clues of the
    slides of that round bearing its title. *)
Theorem ordering_invariant (doc : Document) (w : list FileWrite) :
  main fromstring args = Ok (doc, w) ->
  let evs := encountered fromstring args (prs_slides (pptx args)) 1 None in
  exists cats1 cats2,
    doc_rounds doc = [ {| name := "Round 1"; categories := cats1 |};
                       {| name := "Round 2"; categories := cats2 |} ]
    /\ in_encounter_order cats1 (in_round round1 evs)
    /\ in_encounter_order cats2 (in_round round2 evs).
Proof.
  intros Hmain evs.
  destruct (main_inv _ _ Hmain) as (st & Hloop & -> & _).
  exists (categories_of (rounds st round1)), (categories_of (rounds st round2)).
  split; [reflexivity | ].
  split; apply categories_in_encounter_order;
    apply (@loop_encountered _ 1 initial_state st Hloop).
Qed.

End Order.

Lemma ordering_invariant_witness :
  exists doc w cats1 cats2,
    main sample_manifest (default_args ordering_deck) = Ok (doc, w)
    /\ doc_rounds doc = [ {| name := "Round 1"; categories := cats1 |};
                          {| name := "Round 2"; categories := cats2 |} ]
    /\ map cat_name cats1 = ["History"; "Art"]
    /\ cats2 = [].
Proof.
  eexists. eexists.
  assert (H0 : main sample_manifest (default_args ordering_deck)
               = Ok (build_document
                       {| current_round := Some round1;
                          rounds_round1 :=
                            replay
                              (in_round round1
                                 (encountered sample_manifest
                                    (default_args ordering_deck)
                                    (prs_slides ordering_deck) 1 None)) [];
                          rounds_round2 := []; st_final := None;
                          files := [] |}, [])) by reflexivity.
  pose proof (@ordering_invariant sample_manifest (default_args ordering_deck)
                _ _ H0) as T.
  cbv zeta in T. destruct T as (cats1 & cats2 & Hd & [H1 _] & [H2 _]).
  exists cats1, cats2.
  split; [exact H0 | split; [exact Hd | split; [exact H1 | ]]].
  destruct cats2; [reflexivity | discriminate H2].
Defined.

(** * Further properties *)

(** ** What [get_body_text] returns and when it raises *)

Lemma body_parts_texts (title_shape : option Shape) (shs : list Shape) :
  Forall (fun sh => qualifying title_shape sh = true ->
                    text_frame_text sh <> Raise) shs ->
  forall parts,
    body_parts title_shape shs parts
    = Ok (parts ++ body_texts title_shape shs).
Proof.
  unfold body_texts, qualifying.
  induction 1 as [| sh rest Hsh _ IH]; intros parts.
  - cbn. now rewrite app_nil_r.
  - cbn [body_parts filter].
    destruct (match has_text_frame sh with Some b => b | None => false end);
      cbn [negb andb]; [ | apply IH ].
    destruct (match title_shape with
              | Some t => shape_eq sh t
              | None => false
              end); cbn [negb]; [apply IH | ].
    specialize (Hsh eq_refl). unfold shape_text at 1. cbn [map filter].
    destruct (text_frame_text sh) as [txt |]; [ | congruence ].
    cbn [bind].
    destruct txt as [t |];
      match goal with
      | |- context [PyStr.truthy ?x] => destruct (PyStr.truthy x)
      end; rewrite IH; try reflexivity; now rewrite <- app_assoc.
Qed.

(** X1.  When the text of every shape that has a text frame and is not
    the title shape can be read, [get_body_text] returns the trimmed
    newline-join of the trimmed, non-empty texts of those shapes in
    traversal order; the title shape is told apart by identity, so a
    box repeating the title text is part of the body. *)
Theorem get_body_text_joined (slide : Slide) :
  let title_shape := try_except (shapes_title slide) None in
  Forall (fun sh => qualifying title_shape sh = true ->
                    text_frame_text sh <> Raise) (shapes slide) ->
  get_body_text slide
  = Ok (PyStr.strip
          (PyStr.join_lines (body_texts title_shape (shapes slide)))).
Proof.
  intros title_shape H. unfold get_body_text. fold title_shape.
  rewrite (@body_parts_texts title_shape (shapes slide) H []). reflexivity.
Qed.

Lemma get_body_text_joined_witness :
  get_body_text two_box_slide
  = Ok ("Who painted" ++ PyStr.newline ++ "Art")%string.
Proof.
  rewrite (@get_body_text_joined two_box_slide).
  - reflexivity.
  - repeat constructor; discriminate.
Defined.

Lemma body_parts_raise (title_shape : option Shape) (shs : list Shape) :
  forall parts,
    body_parts title_shape shs parts = Raise
    <-> Exists (fun sh => qualifying title_shape sh = true
                          /\ text_frame_text sh = Raise) shs.
Proof.
  unfold qualifying.
  induction shs as [| sh rest IH]; intros parts.
  - cbn. split; [discriminate | intros H; inversion H].
  - cbn [body_parts]. rewrite Exists_cons.
    destruct (match has_text_frame sh with Some b => b | None => false end);
      cbn [negb andb].
    2: { rewrite IH. split; [auto | intros [[H _] | H]; [discriminate | auto]]. }
    destruct (match title_shape with
              | Some t => shape_eq sh t
              | None => false
              end); cbn [negb].
    { rewrite IH. split; [auto | intros [[H _] | H]; [discriminate | auto]]. }
    destruct (text_frame_text sh) as [txt |]; cbn [bind].
    + match goal with
      | |- context [PyStr.truthy ?x] => destruct (PyStr.truthy x)
      end; rewrite IH;
        (split; [auto | intros [[_ H] | H]; [discriminate | auto]]).
    + split; [intros _; left; auto | reflexivity].
Qed.

(** X2.  [get_body_text] raises exactly when the text of some shape
    that has a text frame and is not the title shape cannot be read; a
    fault of the title lookup, of the title shape's own text or of a
    shape without text frame never makes it raise. *)
Theorem get_body_text_raises_iff (slide : Slide) :
  get_body_text slide = Raise
  <-> Exists (fun sh =>
                qualifying (try_except (shapes_title slide) None) sh = true
                /\ text_frame_text sh = Raise) (shapes slide).
Proof.
  unfold get_body_text. rewrite <- (body_parts_raise _ (shapes slide) []).
  destruct (body_parts (try_except (shapes_title slide) None)
              (shapes slide) []); cbn; split; congruence.
Qed.

(** ** Trimmed results *)

Lemma lstrip_fixed (s : string) :
  match s with
  | EmptyString => True
  | String c _ => PyStr.is_space c = false
  end -> PyStr.lstrip s = s.
Proof. destruct s as [| c r]; cbn; [reflexivity | now intros ->]. Qed.

Lemma lstrip_head (s : string) :
  match PyStr.lstrip s with
  | EmptyString => True
  | String c _ => PyStr.is_space c = false
  end.
Proof.
  induction s as [| c r IH]; cbn; [exact I | ].
  destruct (PyStr.is_space c) eqn:E; [exact IH | exact E].
Qed.

Lemma rstrip_head (s : string) :
  match s with
  | EmptyString => True
  | String c _ => PyStr.is_space c = false
  end ->
  match PyStr.rstrip s with
  | EmptyString => True
  | String c _ => PyStr.is_space c = false
  end.
Proof.
  destruct s as [| c r]; cbn; [auto | ]. intros Hc.
  destruct (PyStr.rstrip r); [now rewrite Hc | exact Hc].
Qed.

Lemma rstrip_idempotent (s : string) :
  PyStr.rstrip (PyStr.rstrip s) = PyStr.rstrip s.
Proof.
  induction s as [| c r IH]; [reflexivity | ]. cbn [PyStr.rstrip].
  destruct (PyStr.rstrip r) as [| d r'] eqn:E.
  - destruct (PyStr.is_space c) eqn:Hc; [reflexivity | ].
    cbn. now rewrite Hc.
  - cbn [PyStr.rstrip]. cbn [PyStr.rstrip] in IH. now rewrite IH.
Qed.

(** A trimmed string has no white space left at either end. *)
Lemma strip_trimmed (s : string) :
  PyStr.lstrip (PyStr.strip s) = PyStr.strip s
  /\ PyStr.rstrip (PyStr.strip s) = PyStr.strip s.
Proof.
  unfold PyStr.strip. split.
  - apply lstrip_fixed, rstrip_head, lstrip_head.
  - apply rstrip_idempotent.
Qed.

Lemma strip_idempotent (s : string) :
  PyStr.strip (PyStr.strip s) = PyStr.strip s.
Proof.
  destruct (strip_trimmed s) as [Hl Hr].
  unfold PyStr.strip at 1. now rewrite Hl, Hr.
Qed.

Lemma ascii_lstrip (s : string) :
  ascii_text s = true -> ascii_text (PyStr.lstrip s) = true.
Proof.
  induction s as [| c r IH]; [reflexivity | ]. intros H.
  cbn [PyStr.lstrip]. destruct (PyStr.is_space c); [ | exact H ].
  cbn [ascii_text] in H. apply andb_true_iff in H. now apply IH.
Qed.

Lemma ascii_rstrip (s : string) :
  ascii_text s = true -> ascii_text (PyStr.rstrip s) = true.
Proof.
  induction s as [| c r IH]; [reflexivity | ]. intros H.
  cbn [ascii_text] in H. apply andb_true_iff in H. destruct H as [Hc Hr].
  cbn [PyStr.rstrip]. specialize (IH Hr).
  destruct (PyStr.rstrip r).
  - destruct (PyStr.is_space c); [reflexivity | ].
    cbn [ascii_text]. now rewrite Hc.
  - cbn [ascii_text] in *. now rewrite Hc, IH.
Qed.

Lemma ascii_strip (s : string) :
  ascii_text s = true -> ascii_text (PyStr.strip s) = true.
Proof. intros H. unfold PyStr.strip. now apply ascii_rstrip, ascii_lstrip. Qed.

Lemma ascii_app (s t : string) :
  ascii_text (s ++ t) = ascii_text s && ascii_text t.
Proof.
  induction s as [| c r IH]; [reflexivity | ].
  cbn [append ascii_text]. now rewrite IH, andb_assoc.
Qed.

Lemma ascii_join_lines (parts : list string) :
  forallb ascii_text parts = true ->
  ascii_text (PyStr.join_lines parts) = true.
Proof.
  induction parts as [| p rest IH]; [reflexivity | ]. intros H.
  cbn [forallb] in H. apply andb_true_iff in H. destruct H as [Hp Hr].
  destruct rest as [| p' rest']; [exact Hp | ].
  change (PyStr.join_lines (p :: p' :: rest'))
    with (p ++ PyStr.newline ++ PyStr.join_lines (p' :: rest'))%string.
  rewrite !ascii_app, Hp, (IH Hr). reflexivity.
Qed.

Lemma ascii_body_parts (title_shape : option Shape) (shs : list Shape) :
  forall parts ps,
    forallb ascii_shape shs = true ->
    forallb ascii_text parts = true ->
    body_parts title_shape shs parts = Ok ps ->
    forallb ascii_text ps = true.
Proof.
  induction shs as [| sh rest IH]; intros parts ps Hs Hp H;
    cbn [body_parts] in H.
  - now inversion H; subst.
  - cbn [forallb] in Hs. apply andb_true_iff in Hs. destruct Hs as [Hsh Hs].
    destruct (negb match has_text_frame sh with
                   | Some b => b
                   | None => false
                   end); [exact (IH _ _ Hs Hp H) | ].
    destruct (match title_shape with
              | Some t => shape_eq sh t
              | None => false
              end); [exact (IH _ _ Hs Hp H) | ].
    unfold ascii_shape in Hsh.
    destruct (text_frame_text sh) as [txt |]; cbn [bind] in H;
      [ | discriminate ].
    cbn zeta in H.
    destruct (PyStr.truthy
                (PyStr.strip match txt with Some s => s | None => "" end));
      [ | exact (IH _ _ Hs Hp H) ].
    apply (IH _ _ Hs) in H; [exact H | ].
    rewrite forallb_app, Hp. cbn [forallb]. rewrite andb_true_r.
    apply ascii_strip. destruct txt; [exact Hsh | reflexivity].
Qed.

(** X3.  On a slide whose texts are ASCII, the title, the notes and
    (when it is returned) the body come back trimmed and ASCII: they
    have no white space at either end, so trimming them again, as the
    loop does with the title, changes nothing. *)
Theorem extractors_return_trimmed (slide : Slide) :
  ascii_slide slide = true ->
  (PyStr.strip (get_slide_title slide) = get_slide_title slide
   /\ PyStr.strip (get_notes_text slide) = get_notes_text slide
   /\ (forall q, get_body_text slide = Ok q -> PyStr.strip q = q)
   /\ PyStr.lstrip (get_slide_title slide) = get_slide_title slide
   /\ PyStr.rstrip (get_slide_title slide) = get_slide_title slide
   /\ PyStr.lstrip (get_notes_text slide) = get_notes_text slide
   /\ PyStr.rstrip (get_notes_text slide) = get_notes_text slide)
  /\ ascii_text (get_slide_title slide) = true
  /\ ascii_text (get_notes_text slide) = true
  /\ (forall q, get_body_text slide = Ok q -> ascii_text q = true).
Proof.
  intros Hascii. unfold ascii_slide in Hascii.
  apply andb_true_iff in Hascii. destruct Hascii as [Hascii Han].
  apply andb_true_iff in Hascii. destruct Hascii as [Hat Hab].
  assert (Ht : exists s, get_slide_title slide = PyStr.strip s
                         /\ ascii_text s = true).
  { unfold get_slide_title.
    destruct (shapes_title slide) as [[sh |] |]; cbn;
      try (now exists "").
    unfold ascii_shape in Hat.
    destruct (has_text_frame sh) as [[|] |]; cbn; try (now exists "").
    destruct (text_frame_text sh) as [[t |] |]; cbn; try (now exists "").
    now exists t. }
  assert (Hn : exists s, get_notes_text slide = PyStr.strip s
                         /\ ascii_text s = true).
  { unfold get_notes_text.
    destruct (notes_text slide) as [[t |] |]; cbn;
      [now exists t | now exists "" | now exists ""]. }
  destruct Ht as (t & Ht & Hta), Hn as (n & Hn & Hna). rewrite Ht, Hn.
  destruct (strip_trimmed t) as [Htl Htr], (strip_trimmed n) as [Hnl Hnr].
  split; [ | split; [ | split ] ].
  - repeat split; try apply strip_idempotent; try assumption.
    intros q Hq. unfold get_body_text in Hq.
    destruct (body_parts (try_except (shapes_title slide) None)
                (shapes slide) []); cbn in Hq; [ | discriminate ].
    inversion Hq. apply strip_idempotent.
  - now apply ascii_strip.
  - now apply ascii_strip.
  - intros q Hq. unfold get_body_text in Hq.
    destruct (body_parts (try_except (shapes_title slide) None)
                (shapes slide) []) as [ps |] eqn:E; cbn in Hq;
      [ | discriminate ].
    inversion Hq. apply ascii_strip, ascii_join_lines.
    exact (@ascii_body_parts _ _ [] ps Hab eq_refl E).
Qed.

Lemma extractors_return_trimmed_witness :
  get_notes_text two_box_slide = "Monet"
  /\ PyStr.strip (get_notes_text two_box_slide) = get_notes_text two_box_slide
  /\ ascii_text (get_notes_text two_box_slide) = true.
Proof.
  destruct (@extractors_return_trimmed two_box_slide eq_refl)
    as ((_ & H & _) & _ & Ha & _).
  split; [reflexivity | ]. split; [exact H | exact Ha].
Defined.

(** ** Numbers in file names *)

Lemma parse_decimal_decimal (n : nat) :
  parse_decimal (PyStr.decimal n) = Some n.
Proof.
  unfold parse_decimal, PyStr.decimal.
  assert (H : forall d, option_map Nat.of_uint
                          (NilEmpty.uint_of_string (NilZero.string_of_uint d))
                        = Some (Nat.of_uint d)).
  { intros d. destruct d; try reflexivity;
      unfold NilZero.string_of_uint; now rewrite NilEmpty.usu. }
  rewrite H. now rewrite DecimalNat.Unsigned.of_to.
Qed.

Lemma parse_decimal_zeros (k : nat) (s : string) (n : nat) :
  parse_decimal s = Some n -> parse_decimal (PyStr.zeros k ++ s) = Some n.
Proof.
  unfold parse_decimal. intros H.
  induction k as [| k IH]; [exact H | ].
  cbn [PyStr.zeros String.append NilEmpty.uint_of_string].
  destruct (NilEmpty.uint_of_string (PyStr.zeros k ++ s)) as [d |];
    [ | discriminate ].
  exact IH.
Qed.

(** The number can be read back from its zero-padded form. *)
Lemma parse_decimal_zero_padded (w n : nat) :
  parse_decimal (PyStr.zero_padded w n) = Some n.
Proof.
  unfold PyStr.zero_padded. apply parse_decimal_zeros, parse_decimal_decimal.
Qed.

Lemma zero_padded_inj (w n m : nat) :
  PyStr.zero_padded w n = PyStr.zero_padded w m -> n = m.
Proof.
  intros H. pose proof (parse_decimal_zero_padded w n) as Hn.
  rewrite H, parse_decimal_zero_padded in Hn. congruence.
Qed.

Lemma all_digits_app (a b : string) :
  all_digits (a ++ b) = all_digits a && all_digits b.
Proof.
  induction a as [| c a IH]; cbn; [reflexivity | ].
  now rewrite IH, andb_assoc.
Qed.

Lemma all_digits_zeros (k : nat) : all_digits (PyStr.zeros k) = true.
Proof. induction k; cbn; auto. Qed.

Lemma all_digits_decimal (n : nat) : all_digits (PyStr.decimal n) = true.
Proof.
  unfold PyStr.decimal.
  assert (H : forall d, all_digits (NilEmpty.string_of_uint d) = true)
    by (induction d; cbn; auto).
  destruct (Nat.to_uint n); try apply H. reflexivity.
Qed.

Lemma all_digits_zero_padded (w n : nat) :
  all_digits (PyStr.zero_padded w n) = true.
Proof.
  unfold PyStr.zero_padded.
  now rewrite all_digits_app, all_digits_zeros, all_digits_decimal.
Qed.

Lemma take_digits_app (ds : string) (c : ascii) (r : string) :
  all_digits ds = true -> is_digit c = false ->
  take_digits (ds ++ String c r) = ds.
Proof.
  intros H Hc. induction ds as [| d ds IH]; cbn.
  - now rewrite Hc.
  - cbn in H. apply andb_true_iff in H. destruct H as [Hd Hds].
    rewrite Hd. now rewrite IH.
Qed.

Lemma append_cancel_l (a x y : string) :
  (a ++ x = a ++ y)%string -> x = y.
Proof.
  induction a as [| c a IH]; cbn; intros H; [assumption | ].
  injection H as H. auto.
Qed.

(** Two digit strings followed by a character that is not a digit are
    equal as soon as what they start is. *)
Lemma digits_prefix_inj (a b : string) (c d : ascii) (x y : string) :
  all_digits a = true -> all_digits b = true ->
  is_digit c = false -> is_digit d = false ->
  (a ++ String c x = b ++ String d y)%string ->
  a = b /\ String c x = String d y.
Proof.
  intros Ha Hb Hc Hd H.
  assert (E : a = b).
  { rewrite <- (take_digits_app a c x Ha Hc).
    rewrite <- (take_digits_app b d y Hb Hd). now rewrite H. }
  subst b. split; [reflexivity | ]. now apply append_cancel_l in H.
Qed.

Lemma zread_app_last (z : list (string * list byte)) (n name : string)
    (data : list byte) :
  zread (z ++ [(n, data)]) name
  = if String.eqb name n then Some data else zread z name.
Proof.
  induction z as [| [n0 d0] z IH].
  - cbn [app zread]. now destruct (String.eqb name n).
  - cbn [app zread]. rewrite IH. now destruct (String.eqb name n).
Qed.

(** X4.  The manifest path names the ordinal: two ordinals have the
    same manifest path exactly when they are equal, so the candidate
    paths resolved for one ordinal do not change when the archive gets
    a member under the manifest path of another ordinal. *)
Theorem rels_path_injective (fromstring : list byte -> list Element)
    (p : Pptx) (i j : nat) (data : list byte) :
  (_rels_path_for_slide i = _rels_path_for_slide j <-> i = j)
  /\ (i <> j ->
      _slide_audio_targets fromstring
        {| prs_slides := prs_slides p;
           members := members p ++ [(_rels_path_for_slide j, data)] |} i
      = _slide_audio_targets fromstring p i).
Proof.
  assert (Hinj : _rels_path_for_slide i = _rels_path_for_slide j -> i = j).
  { unfold _rels_path_for_slide. intros H.
    apply (append_cancel_l "ppt/slides/_rels/slide") in H.
    change (PyStr.decimal i ++ ".xml.rels")%string
      with (PyStr.decimal i ++ String "." "xml.rels")%string in H.
    change (PyStr.decimal j ++ ".xml.rels")%string
      with (PyStr.decimal j ++ String "." "xml.rels")%string in H.
    apply digits_prefix_inj in H;
      try apply all_digits_decimal; try reflexivity.
    destruct H as [H _].
    pose proof (parse_decimal_decimal i) as Hi.
    rewrite H, parse_decimal_decimal in Hi. congruence. }
  split; [split; [exact Hinj | now intros ->] | ].
  intros Hne. unfold _slide_audio_targets. cbn [members].
  rewrite zread_app_last.
  destruct (String.eqb (_rels_path_for_slide i) (_rels_path_for_slide j))
    eqn:E; [ | reflexivity ].
  apply String.eqb_eq in E. now apply Hinj in E.
Qed.

Lemma rels_path_injective_witness :
  _slide_audio_targets sample_manifest
    {| prs_slides := prs_slides unmarked_deck;
       members := members unmarked_deck
                  ++ [(_rels_path_for_slide 12, [x3c])] |} 2
  = []
  /\ _slide_audio_targets sample_manifest
       {| prs_slides := prs_slides unmarked_deck;
          members := members unmarked_deck
                     ++ [(_rels_path_for_slide 12, [x3c])] |} 12
     = ["ppt/media/media1.M4A"].
Proof.
  split; [ | reflexivity ].
  rewrite (proj2 (@rels_path_injective sample_manifest unmarked_deck 2 12
                    [x3c])); [reflexivity | discriminate].
Defined.

(** ** Image files *)

Lemma image_name_inj (i1 n1 i2 n2 : nat) (g1 g2 : Image) :
  image_name i1 n1 g1 = image_name i2 n2 g2 -> i1 = i2 /\ n1 = n2.
Proof.
  unfold image_name. intros H.
  apply (append_cancel_l "slide") in H.
  change ("_img" ++ ?x)%string with (String "_" ("img" ++ x))%string in H.
  apply digits_prefix_inj in H;
    try apply all_digits_zero_padded; try reflexivity.
  destruct H as [Hi H]. apply zero_padded_inj in Hi.
  apply (append_cancel_l "_img") in H.
  change ("." ++ ?x)%string with (String "." x) in H.
  apply digits_prefix_inj in H;
    try apply all_digits_zero_padded; try reflexivity.
  destruct H as [Hn _]. apply zero_padded_inj in Hn. now split.
Qed.

Lemma images_loop_named (images_dir : string) (idx : nat) (shs : list Shape) :
  forall img_num extracted written p,
    images_loop images_dir idx shs img_num extracted written = Ok p ->
    p = (extracted
         ++ map (fun p => image_name idx (fst p) (snd p))
              (combine (seq (S img_num) (length (shape_images shs)))
                 (shape_images shs)),
         written
         ++ map (fun p => (OsPath.join images_dir
                             (image_name idx (fst p) (snd p)),
                           img_blob (snd p)))
              (combine (seq (S img_num) (length (shape_images shs)))
                 (shape_images shs))).
Proof.
  unfold shape_images.
  induction shs as [| sh rest IH]; intros img_num extracted written p H.
  - cbn in H. inversion H. cbn. now rewrite !app_nil_r.
  - cbn [images_loop] in H. cbn [flat_map].
    destruct (shape_type sh) as [t |]; cbn [bind] in H; [ | discriminate ].
    destruct t as [[| [q | q |] | q] |];
      try (cbn [app]; exact (IH _ _ _ _ H)).
    repeat (destruct q as [q | q |]; try (cbn [app]; exact (IH _ _ _ _ H))).
    destruct (image sh) as [[img |] |]; cbn [bind] in H;
      [ | cbn [app]; exact (IH _ _ _ _ H) | discriminate ].
    cbn zeta in H. destruct (img_ext img) as [e |] eqn:Ee; cbn [bind] in H;
      [ | discriminate ].
    rewrite (IH _ _ _ _ H).
    cbn [app length seq combine map fst snd].
    rewrite Nat.add_1_r. unfold image_name. rewrite Ee.
    now rewrite <- !app_assoc.
Qed.

Lemma extract_images_numbered (slide : Slide) (images_dir : string)
    (idx : nat) (p : list string * list FileWrite) :
  extract_images_from_slide slide images_dir idx = Ok p ->
  p = (map (fun p => image_name idx (fst p) (snd p))
         (combine (seq 1 (length (shape_images (shapes slide))))
            (shape_images (shapes slide))),
       map (fun p => (OsPath.join images_dir (image_name idx (fst p) (snd p)),
                      img_blob (snd p)))
         (combine (seq 1 (length (shape_images (shapes slide))))
            (shape_images (shapes slide)))).
Proof.
  unfold extract_images_from_slide. intros H.
  exact (images_loop_named _ _ _ _ _ _ H).
Qed.

(** X5.  [extract_images_from_slide] raises exactly when reading the
    type of a shape, or the image of a shape of type 13 or the
    extension of that image, raises.
    Otherwise it numbers the shapes of type 13 that have an image from
    1 in traversal order: the [n]-th one is saved, with its own bytes,
    in the images directory under the name slide<ordinal, 3 digits>_img
    <n, 2 digits>.<extension in lower case, png when the image has none
    or an empty one>, and the names are returned in that order. *)
Theorem extract_images_named (slide : Slide) (images_dir : string)
    (idx : nat) :
  let images := shape_images (shapes slide) in
  let numbered := combine (seq 1 (length images)) images in
  (pictures_ok slide = true ->
   extract_images_from_slide slide images_dir idx
   = Ok (map (fun p => image_name idx (fst p) (snd p)) numbered,
         map (fun p => (OsPath.join images_dir
                          (image_name idx (fst p) (snd p)),
                        img_blob (snd p))) numbered))
  /\ (pictures_ok slide = false ->
      extract_images_from_slide slide images_dir idx = Raise)
  /\ (forall n img,
        exists d1 d2,
          image_name idx n img
          = ("slide" ++ d1 ++ "_img" ++ d2 ++ "."
             ++ PyStr.lower (match img_ext img with
                             | Ok (Some e) =>
                                 if PyStr.truthy e then e else "png"
                             | _ => "png"
                             end))%string
          /\ all_digits d1 = true /\ parse_decimal d1 = Some idx
          /\ 3 <= String.length d1
          /\ all_digits d2 = true /\ parse_decimal d2 = Some n
          /\ 2 <= String.length d2).
Proof.
  intros images numbered. split; [ | split ].
  - intros H. rewrite (extract_images_returns slide images_dir idx H).
    f_equal. apply extract_images_numbered.
    apply (extract_images_returns slide images_dir idx H).
  - apply extract_images_raises.
  - intros n img.
    exists (PyStr.zero_padded 3 idx), (PyStr.zero_padded 2 n).
    assert (Hlen : forall w k, w <= String.length (PyStr.zero_padded w k)).
    { intros w k. unfold PyStr.zero_padded.
      assert (Happ : forall a b, String.length (a ++ b)
                                 = String.length a + String.length b)
        by (intros a b; induction a; cbn; auto).
      assert (Hz : forall m, String.length (PyStr.zeros m) = m)
        by (induction m; cbn; auto).
      rewrite Happ, Hz. lia. }
    repeat split; try apply all_digits_zero_padded;
      try apply parse_decimal_zero_padded; apply Hlen.
Qed.

Lemma extract_images_named_witness :
  extract_images_from_slide gallery_slide "assets/images" 7
  = Ok (["slide007_img01.jpeg"; "slide007_img02.png"; "slide007_img03.png"],
        [("assets/images/slide007_img01.jpeg", [xff; xd8]);
         ("assets/images/slide007_img02.png", [x01]);
         ("assets/images/slide007_img03.png", [x02])])
  /\ extract_images_from_slide linked_picture_slide "assets/images" 2 = Raise
  /\ extract_images_from_slide unrecognised_shape_slide "assets/images" 2
     = Raise.
Proof.
  split; [ | split ].
  - destruct (@extract_images_named gallery_slide "assets/images" 7)
      as (H & _ & _).
    rewrite (H eq_refl). reflexivity.
  - destruct (@extract_images_named linked_picture_slide "assets/images" 2)
      as (_ & H & _).
    exact (H eq_refl).
  - destruct (@extract_images_named unrecognised_shape_slide
                "assets/images" 2) as (_ & H & _).
    exact (H eq_refl).
Defined.

Lemma NoDup_map_fst_inj (A B C : Type) (f : A * B -> C) (l : list (A * B)) :
  (forall p q, f p = f q -> fst p = fst q) ->
  NoDup (map fst l) -> NoDup (map f l).
Proof.
  intros Hf. induction l as [| p l IH]; cbn; intros H; [constructor | ].
  inversion H as [| ? ? Hnotin Hnd]; subst. constructor; [ | auto ].
  intros Hin. apply in_map_iff in Hin. destruct Hin as (q & Hq & Hin).
  apply Hnotin. rewrite <- (Hf _ _ Hq). now apply in_map.
Qed.

Lemma map_fst_combine_seq (A : Type) (l : list A) (start : nat) :
  map fst (combine (seq start (length l)) l) = seq start (length l).
Proof.
  revert start. induction l as [| x l IH]; intros start; cbn;
    [reflexivity | now rewrite IH].
Qed.

(** X6.  Image file names never collide: the names returned for the
    pictures of one slide are pairwise distinct, and a name returned
    for one slide is returned for another only if the two ordinals are
    equal. *)
Theorem image_names_distinct (slide1 slide2 : Slide) (dir1 dir2 : string)
    (idx1 idx2 : nat) (p1 p2 : list string * list FileWrite) :
  extract_images_from_slide slide1 dir1 idx1 = Ok p1 ->
  extract_images_from_slide slide2 dir2 idx2 = Ok p2 ->
  NoDup (fst p1)
  /\ (forall name, In name (fst p1) -> In name (fst p2) -> idx1 = idx2).
Proof.
  intros H1 H2.
  rewrite (extract_images_numbered _ _ _ H1).
  rewrite (extract_images_numbered _ _ _ H2). cbn [fst]. split.
  - apply NoDup_map_fst_inj.
    + intros p q H. now apply image_name_inj in H.
    + rewrite map_fst_combine_seq. apply seq_NoDup.
  - intros name Hn1 Hn2. apply in_map_iff in Hn1, Hn2.
    destruct Hn1 as (p & Hp & _), Hn2 as (q & Hq & _).
    rewrite <- Hq in Hp. now apply image_name_inj in Hp.
Qed.

Lemma image_names_distinct_witness :
  NoDup ["slide007_img01.jpeg"; "slide007_img02.png"; "slide007_img03.png"].
Proof.
  exact (proj1 (@image_names_distinct gallery_slide gallery_slide
                  "assets/images" "assets/images" 7 7
                  (["slide007_img01.jpeg"; "slide007_img02.png";
                    "slide007_img03.png"],
                   [("assets/images/slide007_img01.jpeg", [xff; xd8]);
                    ("assets/images/slide007_img02.png", [x01]);
                    ("assets/images/slide007_img03.png", [x02])])
                  _ eq_refl eq_refl)).
Defined.

(** ** Audio files *)

Lemma audio_loop_named (z : list (string * list byte)) (audio_dir : string)
    (idx : nat) (targets : list string) :
  forall saved written,
    audio_loop z audio_dir idx targets saved written
    = (saved ++ map (audio_name idx)
                  (filter (fun t => str_in t (namelist z)) targets),
       written ++ flat_map
                    (fun t => match zread z t with
                              | Some data =>
                                  [(OsPath.join audio_dir (audio_name idx t),
                                    data)]
                              | None => []
                              end) targets).
Proof.
  induction targets as [| t rest IH]; intros saved written.
  - cbn. now rewrite !app_nil_r.
  - cbn [audio_loop filter flat_map].
    destruct (zread z t) as [data |] eqn:E.
    + assert (H : str_in t (namelist z) = true).
      { destruct (str_in t (namelist z)) eqn:F; [reflexivity | ].
        apply zread_namelist in F. congruence. }
      rewrite H, IH. cbn [map app]. unfold audio_name.
      now rewrite <- !app_assoc.
    + apply zread_namelist in E. rewrite E. cbn [app]. apply IH.
Qed.

Lemma extract_audio_saved (fromstring : list byte -> list Element)
    (p : Pptx) (audio_dir : string) (idx : nat) :
  extract_audio_from_slide fromstring p audio_dir idx
  = (map (audio_name idx)
       (filter (in_archive p) (_slide_audio_targets fromstring p idx)),
     flat_map (fun t => match zread (members p) t with
                        | Some data =>
                            [(OsPath.join audio_dir (audio_name idx t), data)]
                        | None => []
                        end) (_slide_audio_targets fromstring p idx)).
Proof.
  unfold extract_audio_from_slide.
  destruct (_slide_audio_targets fromstring p idx) as [| t rest] eqn:E;
    [reflexivity | ].
  rewrite audio_loop_named. reflexivity.
Qed.

(** X7.  The audio of a slide is saved candidate by candidate, in
    order, skipping the candidates that are not members of the archive:
    each one kept is written to the audio directory as
    slide<ordinal, 3 digits>_<base name of the candidate> holding the
    bytes of the member, and every file written comes from such a
    candidate. *)
Theorem extract_audio_named (fromstring : list byte -> list Element)
    (p : Pptx) (audio_dir : string) (idx : nat) :
  let targets := _slide_audio_targets fromstring p idx in
  let written :=
    flat_map (fun t => match zread (members p) t with
                       | Some data =>
                           [(OsPath.join audio_dir (audio_name idx t), data)]
                       | None => []
                       end) targets in
  extract_audio_from_slide fromstring p audio_dir idx
  = (map (audio_name idx) (filter (in_archive p) targets), written)
  /\ (forall path data,
        In (path, data) written ->
        exists t, In t targets /\ zread (members p) t = Some data
                  /\ path = OsPath.join audio_dir (audio_name idx t)).
Proof.
  intros targets written. split.
  - apply extract_audio_saved.
  - intros path data Hin. unfold written in Hin. apply in_flat_map in Hin.
    destruct Hin as (t & Ht & Hin). exists t.
    destruct (zread (members p) t) as [d |]; [ | destruct Hin ].
    destruct Hin as [E | []]. inversion E. auto.
Qed.

(** ** References and files *)

Lemma endswith_slash_app (a b : string) :
  b <> "" -> PyStr.endswith (a ++ b) "/" = PyStr.endswith b "/".
Proof.
  intros Hb. induction a as [| c a IH]; [reflexivity | ].
  cbn [String.append PyStr.endswith]. rewrite IH.
  assert (E : String.eqb (String c (a ++ b)) "/" = false).
  { cbn. destruct (Ascii.eqb c "/"); [ | reflexivity ].
    destruct a; cbn; [destruct b; [congruence | reflexivity] | reflexivity]. }
  now rewrite E.
Qed.

(** Joining under a directory given without final slash. *)
Lemma join_plain (a b : string) :
  PyStr.truthy a = true -> PyStr.endswith a "/" = false ->
  PyStr.startswith b "/" = false ->
  OsPath.join a b = (a ++ "/" ++ b)%string.
Proof. unfold OsPath.join. now intros -> -> ->. Qed.

Lemma join_assets (a kind name : string) :
  PyStr.truthy a = true -> PyStr.endswith a "/" = false ->
  kind <> "" ->
  PyStr.startswith kind "/" = false -> PyStr.endswith kind "/" = false ->
  PyStr.startswith name "/" = false ->
  OsPath.join (OsPath.join a kind) name
  = (a ++ "/" ++ kind ++ "/" ++ name)%string.
Proof.
  intros Ha He Hk Hks Hke Hn.
  rewrite (join_plain a kind Ha He Hks).
  rewrite join_plain; [now rewrite string_app_assoc | | | assumption].
  - destruct a; [discriminate | reflexivity].
  - rewrite endswith_slash_app.
    + change ("/" ++ kind)%string with (String "/" kind).
      cbn [PyStr.endswith]. rewrite Hke.
      cbn. destruct kind; [congruence | reflexivity].
    + discriminate.
Qed.

Lemma srcs_media_key (a kind : string) (names : list string) :
  srcs (media_key a kind names)
  = map (fun n => (a ++ "/" ++ kind ++ "/" ++ n)%string) names.
Proof.
  destruct names; [reflexivity | ]. cbn [media_key srcs].
  now rewrite map_map.
Qed.

Lemma audio_written_paths (z : list (string * list byte)) (dir : string)
    (idx : nat) (targets : list string) :
  map fst (flat_map (fun t => match zread z t with
                              | Some data =>
                                  [(OsPath.join dir (audio_name idx t), data)]
                              | None => []
                              end) targets)
  = map (fun t => OsPath.join dir (audio_name idx t))
      (filter (fun t => str_in t (namelist z)) targets).
Proof.
  induction targets as [| t rest IH]; [reflexivity | ].
  cbn [flat_map filter]. destruct (zread z t) as [data |] eqn:E.
  - assert (H : str_in t (namelist z) = true).
    { destruct (str_in t (namelist z)) eqn:F; [reflexivity | ].
      apply zread_namelist in F. congruence. }
    rewrite H. cbn [app map fst]. now rewrite IH.
  - apply zread_namelist in E. rewrite E. exact IH.
Qed.

(** X8.  When the assets folder is given non-empty and without final
    slash, the references a clue or final record carries are exactly
    the paths of the files written for its slide: image references
    first, then audio references, each in the order written. *)
Theorem references_name_written_files
    (fromstring : list byte -> list Element) (args : Args) (idx : nat)
    (slide : Slide) (q : string) :
  PyStr.truthy (assets args) = true ->
  PyStr.endswith (assets args) "/" = false ->
  srcs (images (clue_for fromstring args idx slide q))
  ++ srcs (audio (clue_for fromstring args idx slide q))
  = map fst (media_files fromstring args idx slide)
  /\ srcs (fin_images (final_for fromstring args idx slide q))
     ++ srcs (fin_audio (final_for fromstring args idx slide q))
     = map fst (media_files fromstring args idx slide).
Proof.
  intros Ha He.
  assert (H : srcs (media_key (assets_root args) "images"
                      (fst (extracted_images slide (images_dir args) idx)))
              ++ srcs (media_key (assets_root args) "audio"
                         (fst (extract_audio_from_slide fromstring
                                 (pptx_path args) (audio_dir args) idx)))
              = map fst (media_files fromstring args idx slide)).
  { unfold media_files. rewrite map_app, !srcs_media_key.
    rewrite extract_audio_saved. cbn [fst snd].
    rewrite !map_map, audio_written_paths. cbn [fst].
    f_equal.
    - unfold extracted_images.
      destruct (extract_images_from_slide slide (images_dir args) idx)
        as [p |] eqn:E; cbn [try_except]; [ | reflexivity ].
      rewrite (extract_images_numbered _ _ _ E). cbn [fst snd].
      rewrite !map_map. apply map_ext; intros x.
      unfold images_dir, assets_root. cbn [fst].
      rewrite join_assets; try assumption; try reflexivity; discriminate.
    - apply map_ext; intros x.
      unfold audio_dir, assets_root.
      rewrite join_assets; try assumption; try reflexivity; discriminate. }
  split; exact H.
Qed.

Lemma references_name_written_files_witness :
  srcs (images (clue_for sample_manifest (default_args audio_deck) 2
                  picture_slide "Who painted this?"))
  ++ srcs (audio (clue_for sample_manifest (default_args audio_deck) 2
                    picture_slide "Who painted this?"))
  = ["assets/images/slide002_img01.png"; "assets/audio/slide002_media1.M4A"].
Proof.
  destruct (@references_name_written_files sample_manifest
              (default_args audio_deck) 2 picture_slide "Who painted this?"
              eq_refl eq_refl) as [H _].
  rewrite H. reflexivity.
Defined.

(** ** Marker slides *)

(** X9.  A round marker slide only sets the section: the iteration
    returns, without reading body, notes or media (so even when they
    cannot be read), the state it was given with the section set to the
    marker's round; meeting the same marker again changes nothing
    more. *)
Theorem round_marker_sets_section_only
    (fromstring : list byte -> list Element) (args : Args) (st : State)
    (idx idx' : nat) (slide : Slide) (r : RoundKey) :
  classify args slide
  = match r with round1 => Round1Marker | round2 => Round2Marker end ->
  step fromstring args st idx slide = Ok (set_current_round st (Some r))
  /\ step fromstring args (set_current_round st (Some r)) idx' slide
     = Ok (set_current_round st (Some r))
  /\ (forall k, rounds (set_current_round st (Some r)) k = rounds st k)
  /\ st_final (set_current_round st (Some r)) = st_final st
  /\ files (set_current_round st (Some r)) = files st.
Proof.
  intros H. destruct r.
  - rewrite !step_round1_marker by assumption. repeat split.
  - rewrite !step_round2_marker by assumption. repeat split.
Qed.

Lemma round_marker_sets_section_only_witness :
  get_body_text unreadable_marker_slide = Raise
  /\ step sample_manifest (default_args audio_deck) round1_state 3
       unreadable_marker_slide
     = Ok (set_current_round round1_state (Some round2)).
Proof.
  split; [reflexivity | ].
  destruct (@round_marker_sets_section_only sample_manifest
              (default_args audio_deck) round1_state 3 4
              unreadable_marker_slide round2 eq_refl) as [H _].
  exact H.
Defined.

(** X10.  A deck none of whose slides is a round marker gives a
    document with no category in either round, whatever its slides
    hold. *)
Theorem no_round_marker_no_category
    (fromstring : list byte -> list Element) (args : Args)
    (doc : Document) (w : list FileWrite) :
  Forall (fun s => classify args s <> Round1Marker
                   /\ classify args s <> Round2Marker)
    (prs_slides (pptx args)) ->
  main fromstring args = Ok (doc, w) ->
  doc_rounds doc = [ {| name := "Round 1"; categories := [] |};
                     {| name := "Round 2"; categories := [] |} ].
Proof.
  intros Hall Hmain.
  destruct (main_inv _ _ Hmain) as (st & Hloop & -> & _).
  destruct (@loop_outside_keeps_rounds fromstring args _ Hall 1
              initial_state st eq_refl Hloop) as [_ Hr].
  unfold build_document. now rewrite !Hr.
Qed.

Lemma no_round_marker_no_category_witness :
  exists doc w,
    main sample_manifest (default_args unmarked_deck) = Ok (doc, w)
    /\ doc_rounds doc = [ {| name := "Round 1"; categories := [] |};
                          {| name := "Round 2"; categories := [] |} ].
Proof.
  eexists. eexists. split; [reflexivity | ].
  apply (@no_round_marker_no_category sample_manifest
           (default_args unmarked_deck) _ []).
  - repeat constructor; discriminate.
  - reflexivity.
Defined.

(** X11.  The [final] field of a returned document is null exactly
    when no slide of the deck is a final slide. *)
Theorem final_null_iff_no_final_slide
    (fromstring : list byte -> list Element) (args : Args)
    (doc : Document) (w : list FileWrite) :
  main fromstring args = Ok (doc, w) ->
  (final doc = None
   <-> Forall (fun s => classify args s <> FinalMarker)
         (prs_slides (pptx args))).
Proof.
  intros Hmain.
  destruct (main_inv _ _ Hmain) as (st & Hloop & -> & _).
  cbn [final build_document]. split.
  - intros Hnone. apply Forall_forall. intros s Hin Hk.
    apply (@loop_some_final fromstring args (prs_slides (pptx args)))
      with (idx := 1) (st := initial_state) (st' := st); try assumption.
    apply Exists_exists. now exists s.
  - intros Hall.
    now rewrite (@loop_keeps_final fromstring args _ Hall 1 initial_state st).
Qed.

Lemma final_null_iff_no_final_slide_witness :
  exists doc w,
    main sample_manifest (default_args unmarked_deck) = Ok (doc, w)
    /\ final doc = None.
Proof.
  eexists. eexists. split; [reflexivity | ].
  apply (@final_null_iff_no_final_slide sample_manifest
           (default_args unmarked_deck) _ [] eq_refl).
  repeat constructor; discriminate.
Defined.

(** ** Files written by an iteration *)

(** X12.  An iteration writes files only for a final slide and for a
    clue slide that is kept, and then exactly the media files of that
    slide, images before audio; a marker slide, a slide outside a round
    and a dropped slide write nothing. *)
Theorem files_written_by_step
    (fromstring : list byte -> list Element) (args : Args)
    (st st' : State) (idx : nat) (slide : Slide) :
  step fromstring args st idx slide = Ok st' ->
  files st'
  = files st
    ++ match classify args slide,
             contribution fromstring args (current_round st) idx slide with
       | FinalMarker, _ => media_files fromstring args idx slide
       | Content, _ :: _ => media_files fromstring args idx slide
       | _, _ => []
       end.
Proof.
  intros H. apply step_inv in H. unfold contribution.
  destruct (classify args slide).
  - subst. cbn. now rewrite app_nil_r.
  - subst. cbn. now rewrite app_nil_r.
  - destruct H as (q & _ & ->). reflexivity.
  - destruct (current_round st) as [cr |].
    + destruct H as (q & Hq & ->). rewrite Hq.
      destruct (PyStr.truthy (PyStr.strip (get_slide_title slide))
                && PyStr.truthy q && PyStr.truthy (get_notes_text slide)).
      * destruct cr; reflexivity.
      * now rewrite app_nil_r.
    + subst. now rewrite app_nil_r.
Qed.

Lemma files_written_by_step_witness :
  exists st',
    step sample_manifest (default_args audio_deck) round1_state 2
      picture_slide = Ok st'
    /\ map fst (files st')
       = ["assets/images/slide002_img01.png";
          "assets/audio/slide002_media1.M4A"].
Proof.
  exists (match step sample_manifest (default_args audio_deck) round1_state 2
                 picture_slide with
          | Ok s => s
          | Raise => round1_state
          end).
  split; [reflexivity | ].
  rewrite (@files_written_by_step sample_manifest (default_args audio_deck)
             round1_state
             (match step sample_manifest (default_args audio_deck)
                      round1_state 2 picture_slide with
              | Ok s => s
              | Raise => round1_state
              end) 2 picture_slide eq_refl).
  reflexivity.
Defined.

(** ** Well-formed output *)

Lemma append_at_In (c c' : string) (x : Clue) (l' : list Clue)
    (d : OrderedDict.t Clue) :
  In (c', l') (OrderedDict.append_at c x d) ->
  In (c', l') d \/ exists l0, In (c', l0) d /\ l' = l0 ++ [x].
Proof.
  induction d as [| [k l] d IH]; cbn [OrderedDict.append_at]; intros H.
  - destruct H.
  - destruct (String.eqb k c) eqn:E; rewrite String.eqb_sym in E; rewrite E in H.
    + destruct H as [H | H].
      * inversion H; subst. right. exists l. split; [now left | reflexivity].
      * left. now right.
    + destruct H as [H | H]; [left; now left | ].
      destruct (IH H) as [H' | (l0 & H' & ->)].
      * left. now right.
      * right. exists l0. split; [now right | reflexivity].
Qed.

Lemma add_clue_well_formed (c : string) (x : Clue) (d : OrderedDict.t Clue) :
  c <> "" -> question x <> "" -> answer x <> "" ->
  well_formed_dict d -> well_formed_dict (add_clue c x d).
Proof.
  intros Hc Hq Ha Hd c' l' Hin.
  destruct (OrderedDict.mem c d) eqn:Hm.
  - rewrite add_clue_present in Hin by assumption.
    apply append_at_In in Hin. destruct Hin as [Hin | (l0 & Hin & ->)].
    + now apply Hd.
    + destruct (Hd _ _ Hin) as (H1 & H2 & H3).
      split; [assumption | split].
      * destruct l0; discriminate.
      * intros clue Hclue. apply in_app_or in Hclue.
        destruct Hclue as [Hclue | [<- | []]]; auto.
  - rewrite add_clue_absent in Hin by assumption.
    apply in_app_or in Hin. destruct Hin as [Hin | [E | []]].
    + now apply Hd.
    + inversion E; subst. split; [assumption | split; [discriminate | ]].
      intros clue [<- | []]. auto.
Qed.

Section WellFormed.
Variable fromstring : list byte -> list Element.
Variable args : Args.

Lemma step_well_formed (st st' : State) (idx : nat) (slide : Slide) :
  step fromstring args st idx slide = Ok st' ->
  (forall k, well_formed_dict (rounds st k)) ->
  forall k, well_formed_dict (rounds st' k).
Proof.
  intros H Hwf k. apply step_inv in H.
  destruct (classify args slide).
  - subst. destruct k; [exact (Hwf round1) | exact (Hwf round2)].
  - subst. destruct k; [exact (Hwf round1) | exact (Hwf round2)].
  - destruct H as (q & _ & ->).
    destruct k; [exact (Hwf round1) | exact (Hwf round2)].
  - destruct (current_round st) as [cr |]; [ | subst; apply Hwf ].
    destruct H as (q & _ & ->).
    destruct (PyStr.truthy (PyStr.strip (get_slide_title slide))) eqn:Hc;
      [ | apply Hwf ].
    destruct (PyStr.truthy q) eqn:Hq; [ | apply Hwf ].
    destruct (PyStr.truthy (get_notes_text slide)) eqn:Hn; [ | apply Hwf ].
    cbn [andb]. apply truthy_true_iff in Hc, Hq, Hn.
    assert (Hnew : well_formed_dict
                     (add_clue (PyStr.strip (get_slide_title slide))
                        (clue_for fromstring args idx slide q)
                        (rounds st cr)))
      by (apply add_clue_well_formed; auto).
    destruct cr, k;
      first [exact Hnew | exact (Hwf round1) | exact (Hwf round2)].
Qed.

Lemma loop_well_formed (slides : list Slide) :
  forall idx st st',
    loop fromstring args slides idx st = Ok st' ->
    (forall k, well_formed_dict (rounds st k)) ->
    forall k, well_formed_dict (rounds st' k).
Proof.
  induction slides as [| s rest IH]; intros idx st st' H Hwf.
  - cbn in H. inversion H; subst. exact Hwf.
  - cbn [loop] in H.
    destruct (step fromstring args st idx s) as [st1 |] eqn:E;
      cbn [bind] in H; [ | discriminate ].
    apply (IH _ _ _ H). exact (@step_well_formed st st1 idx s E Hwf).
Qed.

(** X13.  Every category of a returned document is well formed: its
    name is not empty, it holds at least one clue, and every clue has a
    non-empty question and a non-empty answer. *)
Theorem output_categories_well_formed (doc : Document)
    (w : list FileWrite) :
  main fromstring args = Ok (doc, w) ->
  forall r, In r (doc_rounds doc) ->
  forall cat, In cat (categories r) -> well_formed_category cat.
Proof.
  intros Hmain r Hr cat Hcat.
  destruct (main_inv _ _ Hmain) as (st & Hloop & -> & _).
  assert (Hwf : forall k, well_formed_dict (rounds st k)).
  { apply (@loop_well_formed _ 1 initial_state st Hloop).
    intros [] c l []. }
  assert (Hd : exists k, In cat (categories_of (rounds st k))).
  { destruct Hr as [<- | [<- | []]]; [exists round1 | exists round2];
      exact Hcat. }
  destruct Hd as [k Hk]. unfold categories_of in Hk.
  apply in_map_iff in Hk. destruct Hk as ([c l] & <- & Hin).
  exact (Hwf k c l Hin).
Qed.

Lemma clue_count_replay (evs : list (string * Clue)) :
  forall d, clue_count (replay evs d) = clue_count d + length evs.
Proof.
  induction evs as [| [c x] evs IH]; intros d.
  - change (replay [] d) with d. cbn [length]. now rewrite Nat.add_0_r.
  - change (replay ((c, x) :: evs) d) with (replay evs (add_clue c x d)).
    rewrite IH, clue_count_add_clue. cbn [length].
    now rewrite Nat.add_succ_r.
Qed.

(** X14.  No clue is lost or duplicated: in a returned document the
    clues of each round, counted over all its categories, are as many
    as the clue slides kept in that round. *)
Theorem clue_count_conserved (doc : Document) (w : list FileWrite) :
  main fromstring args = Ok (doc, w) ->
  let evs := encountered fromstring args (prs_slides (pptx args)) 1 None in
  exists cats1 cats2,
    doc_rounds doc = [ {| name := "Round 1"; categories := cats1 |};
                       {| name := "Round 2"; categories := cats2 |} ]
    /\ length (concat (map clues cats1)) = length (in_round round1 evs)
    /\ length (concat (map clues cats2)) = length (in_round round2 evs).
Proof.
  intros Hmain evs.
  destruct (main_inv _ _ Hmain) as (st & Hloop & -> & _).
  exists (categories_of (rounds st round1)), (categories_of (rounds st round2)).
  split; [reflexivity | ].
  assert (H : forall k,
             length (concat (map clues (categories_of (rounds st k))))
             = length (in_round k evs)).
  { intros k. unfold categories_of. rewrite map_map. cbn [clues].
    change (clue_count (rounds st k) = length (in_round k evs)).
    rewrite (@loop_encountered fromstring args _ 1 initial_state st Hloop k).
    rewrite clue_count_replay. destruct k; reflexivity. }
  split; apply H.
Qed.

End WellFormed.

Lemma output_categories_well_formed_witness :
  well_formed_category
    {| cat_name := "Science";
       clues := [ {| question := "Water's chemical formula?";
                     answer := "H2O"; images := None; audio := None |} ] |}.
Proof.
  apply (@output_categories_well_formed sample_manifest
           (default_args synthetic_deck) synthetic_document [] eq_refl
           {| name := "Round 1";
              categories :=
                [ {| cat_name := "Science";
                     clues := [ {| question := "Water's chemical formula?";
                                   answer := "H2O";
                                   images := None; audio := None |} ] |} ] |}).
  - left. reflexivity.
  - left. reflexivity.
Defined.

Lemma clue_count_conserved_witness :
  exists cats1 cats2,
    doc_rounds synthetic_document
    = [ {| name := "Round 1"; categories := cats1 |};
        {| name := "Round 2"; categories := cats2 |} ]
    /\ length (concat (map clues cats1)) = 1
    /\ length (concat (map clues cats2)) = 0.
Proof.
  exact (@clue_count_conserved sample_manifest (default_args synthetic_deck)
           synthetic_document [] eq_refl).
Defined.

(** ** Letter case in titles *)

Lemma is_space_lower_char (c : ascii) :
  PyStr.is_space (PyStr.lower_char c) = PyStr.is_space c.
Proof. destruct c as [[] [] [] [] [] [] [] []]; reflexivity. Qed.

Lemma upper_lower_char (c : ascii) :
  PyStr.upper_char (PyStr.lower_char c) = PyStr.upper_char c.
Proof. destruct c as [[] [] [] [] [] [] [] []]; reflexivity. Qed.

Lemma upper_lower (s : string) : PyStr.upper (PyStr.lower s) = PyStr.upper s.
Proof.
  unfold PyStr.lower, PyStr.upper.
  induction s as [| c s IH]; cbn; [reflexivity | ].
  now rewrite upper_lower_char, IH.
Qed.

Lemma lstrip_lower (s : string) :
  PyStr.lstrip (PyStr.lower s) = PyStr.lower (PyStr.lstrip s).
Proof.
  unfold PyStr.lower.
  induction s as [| c s IH]; [reflexivity | ].
  cbn [PyStr.map_chars PyStr.lstrip]. rewrite is_space_lower_char.
  destruct (PyStr.is_space c); [exact IH | reflexivity].
Qed.

Lemma rstrip_lower (s : string) :
  PyStr.rstrip (PyStr.lower s) = PyStr.lower (PyStr.rstrip s).
Proof.
  unfold PyStr.lower.
  induction s as [| c s IH]; [reflexivity | ].
  cbn [PyStr.map_chars PyStr.rstrip]. rewrite IH, is_space_lower_char.
  destruct (PyStr.rstrip s); cbn [PyStr.map_chars];
    [destruct (PyStr.is_space c) | ]; reflexivity.
Qed.

(** The key a title is compared by does not depend on the case of its
    letters. *)
Lemma key_of_lower (t : string) :
  PyStr.upper (PyStr.strip t) = PyStr.upper (PyStr.strip (PyStr.lower t)).
Proof.
  unfold PyStr.strip. now rewrite lstrip_lower, rstrip_lower, upper_lower.
Qed.

(** X15.  On ASCII titles, marker matching ignores letter case on
    both sides: two slides whose ASCII titles differ only in the case
    of their letters are classified alike, also under ASCII marker
    titles configured with other letter case. *)
Theorem classification_ignores_case (args args' : Args) (s s' : Slide) :
  ascii_args args = true -> ascii_args args' = true ->
  ascii_slide s = true -> ascii_slide s' = true ->
  PyStr.lower (round1_title args) = PyStr.lower (round1_title args') ->
  PyStr.lower (round2_title args) = PyStr.lower (round2_title args') ->
  PyStr.lower (final_title args) = PyStr.lower (final_title args') ->
  PyStr.lower (get_slide_title s) = PyStr.lower (get_slide_title s') ->
  classify args s = classify args' s'.
Proof.
  intros _ _ _ _ H1 H2 H3 Ht. unfold classify, r1_key, r2_key, f_key.
  rewrite (key_of_lower (get_slide_title s)), (key_of_lower (round1_title args)),
    (key_of_lower (round2_title args)), (key_of_lower (final_title args)).
  rewrite H1, H2, H3, Ht.
  now rewrite <- !key_of_lower.
Qed.

Lemma classification_ignores_case_witness :
  classify (default_args synthetic_deck) (marker_slide "Final Jeopardy")
  = classify {| pptx := synthetic_deck; out := "game-data.json";
                assets := "assets"; round1_title := "round 1";
                round2_title := "Round 2";
                final_title := "final jeopardy" |}
      (marker_slide "FINAL JEOPARDY").
Proof.
  exact (@classification_ignores_case (default_args synthetic_deck)
           {| pptx := synthetic_deck; out := "game-data.json";
              assets := "assets"; round1_title := "round 1";
              round2_title := "Round 2"; final_title := "final jeopardy" |}
           (marker_slide "Final Jeopardy") (marker_slide "FINAL JEOPARDY")
           eq_refl eq_refl eq_refl eq_refl eq_refl eq_refl eq_refl eq_refl).
Defined.

(** ** When a run raises *)

Section Raising.
Variable fromstring : list byte -> list Element.
Variable args : Args.

Lemma step_raises_iff (st : State) (idx : nat) (slide : Slide) :
  step fromstring args st idx slide = Raise
  <-> (classify args slide = FinalMarker
       /\ (get_body_text slide = Raise \/ pictures_ok slide = false))
      \/ (classify args slide = Content /\ current_round st <> None
          /\ (get_body_text slide = Raise
              \/ (exists q, get_body_text slide = Ok q
                    /\ PyStr.truthy (PyStr.strip (get_slide_title slide))
                       && PyStr.truthy q
                       && PyStr.truthy (get_notes_text slide) = true)
                 /\ pictures_ok slide = false)).
Proof.
  destruct (classify args slide) eqn:Hk.
  - rewrite step_round1_marker by assumption.
    split; [discriminate | intros [[? _] | [? _]]; discriminate].
  - rewrite step_round2_marker by assumption.
    split; [discriminate | intros [[? _] | [? _]]; discriminate].
  - destruct (get_body_text slide) as [q |] eqn:Hq.
    + rewrite (step_final_marker fromstring args st idx slide Hk Hq).
      pose proof (extract_images_raises slide (images_dir args) idx) as Hx.
      destruct (extract_images_from_slide slide (images_dir args) idx).
      * split; [discriminate | ].
        intros [[_ [H | H]] | [H _]]; try discriminate.
        apply Hx in H. discriminate.
      * split; [ | reflexivity ]. intros _. left. split; [reflexivity | ].
        right. now apply Hx.
    + rewrite (step_final_marker_raise fromstring args st idx slide Hk Hq).
      split; [ | reflexivity ]. intros _. left. auto.
  - destruct (current_round st) as [cr |] eqn:Hc.
    + destruct (get_body_text slide) as [q |] eqn:Hq.
      * rewrite (step_content fromstring args st idx slide Hk Hc Hq).
        pose proof (extract_images_raises slide (images_dir args) idx) as Hx.
        destruct (PyStr.truthy (PyStr.strip (get_slide_title slide))
                  && PyStr.truthy q && PyStr.truthy (get_notes_text slide))
          eqn:Hf.
        -- destruct (extract_images_from_slide slide (images_dir args) idx).
           ++ split; [discriminate | ].
              intros [[H _] | (_ & _ & [H | [_ H]])]; try discriminate.
              apply Hx in H. discriminate.
           ++ split; [ | reflexivity ]. intros _. right.
              split; [reflexivity | ]. split; [discriminate | ].
              right. split; [ | now apply Hx ].
              exists q. split; [reflexivity | exact Hf].
        -- split; [discriminate | ].
           intros [[H _] | (_ & _ & [H | [(q' & Hq' & Hf') _]])];
             try discriminate.
           inversion Hq'; subst q'. congruence.
      * rewrite (step_content_raise fromstring args st idx slide Hk Hc Hq).
        split; [ | reflexivity ]. intros _. right.
        split; [reflexivity | ]. split; [discriminate | ]. now left.
    + rewrite step_outside_round by assumption.
      split; [discriminate | ].
      intros [[H _] | (_ & H & _)]; [discriminate | now elim H].
Qed.

Lemma loop_raise_inv (slides : list Slide) :
  forall idx st,
    loop fromstring args slides idx st = Raise ->
    Exists (fun s => (classify args s = FinalMarker
                      \/ classify args s = Content)
                     /\ (get_body_text s = Raise \/ pictures_ok s = false))
      slides.
Proof.
  induction slides as [| s rest IH]; intros idx st H; cbn [loop] in H.
  - discriminate.
  - destruct (step fromstring args st idx s) as [st1 |] eqn:E;
      cbn [bind] in H.
    + apply Exists_cons_tl. exact (IH _ _ H).
    + apply Exists_cons_hd. apply step_raises_iff in E.
      destruct E as [[Hk Hr] | (Hk & _ & [Hr | [_ Hr]])]; auto.
Qed.

(** X16.  Once the deck is open and every slide manifest is parsed
    (the parser is taken as total), a run raises only on a slide whose
    body or pictures cannot be read.  The iteration over a slide raises
    exactly when the slide is a final slide, or a slide that is no
    marker met inside a round, and either [get_body_text] raises or,
    the slide being final or having its three fields non-empty, the
    type of one of its shapes, or the image of a shape of type 13 or
    its extension, cannot be read.  So when [main] raises the deck holds such a slide; marker
    slides, and the title and notes of any slide, never make a run
    raise. *)
Theorem main_raises_only_on_unreadable_slide :
  (forall st idx slide,
      step fromstring args st idx slide = Raise
      <-> (classify args slide = FinalMarker
           /\ (get_body_text slide = Raise \/ pictures_ok slide = false))
          \/ (classify args slide = Content /\ current_round st <> None
              /\ (get_body_text slide = Raise
                  \/ (exists q, get_body_text slide = Ok q
                        /\ PyStr.truthy (PyStr.strip (get_slide_title slide))
                           && PyStr.truthy q
                           && PyStr.truthy (get_notes_text slide) = true)
                     /\ pictures_ok slide = false)))
  /\ (main fromstring args = Raise ->
      Exists (fun s => (classify args s = FinalMarker
                        \/ classify args s = Content)
                       /\ (get_body_text s = Raise
                           \/ pictures_ok s = false))
        (prs_slides (pptx args))).
Proof.
  split; [exact step_raises_iff | ].
  unfold main, pptx_path. intros H.
  destruct (loop fromstring args (prs_slides (pptx args)) 1 initial_state)
    as [st |] eqn:E; [discriminate | ].
  exact (loop_raise_inv _ _ _ E).
Qed.

End Raising.

Lemma main_raises_only_on_unreadable_slide_witness :
  main sample_manifest (default_args linked_picture_deck) = Raise
  /\ get_body_text linked_picture_slide = Ok "Who painted this?"
  /\ step sample_manifest (default_args linked_picture_deck) round1_state 2
       linked_picture_slide = Raise
  /\ Exists (fun s => (classify (default_args unreadable_deck) s = FinalMarker
                       \/ classify (default_args unreadable_deck) s = Content)
                      /\ (get_body_text s = Raise \/ pictures_ok s = false))
       (prs_slides unreadable_deck).
Proof.
  split; [reflexivity | ]. split; [reflexivity | ]. split.
  - apply (proj1 (@main_raises_only_on_unreadable_slide sample_manifest
                    (default_args linked_picture_deck))).
    right. split; [reflexivity | ]. split; [discriminate | ].
    right. split; [ | reflexivity ].
    exists "Who painted this?". split; reflexivity.
  - exact (proj2 (@main_raises_only_on_unreadable_slide sample_manifest
                    (default_args unreadable_deck)) eq_refl).
Defined.

(** ** What is gathered is never undone *)

(** X17.  Going through more slides only appends: in each round the
    categories gathered so far keep their places, new ones coming
    after them, and the clues of every category keep their order, new
    ones coming after them. *)
Theorem loop_only_appends (fromstring : list byte -> list Element)
    (args : Args) (slides : list Slide) (idx : nat) (st st' : State) :
  loop fromstring args slides idx st = Ok st' ->
  forall k,
    (exists more,
       OrderedDict.keys (rounds st' k) = OrderedDict.keys (rounds st k) ++ more)
    /\ (forall c, exists more,
          OrderedDict.get c (rounds st' k)
          = OrderedDict.get c (rounds st k) ++ more).
Proof.
  intros H k.
  rewrite (@loop_encountered fromstring args slides idx st st' H k). split.
  - rewrite replay_keys. eauto.
  - intros c. rewrite replay_get. eauto.
Qed.

Lemma loop_only_appends_witness :
  exists st' more,
    loop sample_manifest (default_args audio_deck) [picture_slide] 2
      round1_state = Ok st'
    /\ OrderedDict.keys (rounds st' round1) = ["Science"] ++ more.
Proof.
  exists (match loop sample_manifest (default_args audio_deck)
                  [picture_slide] 2 round1_state with
          | Ok s => s
          | Raise => round1_state
          end).
  destruct (@loop_only_appends sample_manifest (default_args audio_deck)
              [picture_slide] 2 round1_state
              (match loop sample_manifest (default_args audio_deck)
                       [picture_slide] 2 round1_state with
               | Ok s => s
               | Raise => round1_state
               end) eq_refl round1) as [[more Hmore] _].
  exists more. split; [reflexivity | exact Hmore].
Defined.

(** ** Normal form of candidate paths *)

Lemma replace_backslash_cons (c : ascii) (s : string) :
  PyStr.replace_backslash (String c s) = String c s
  <-> (if Ascii.eqb c "\" then "/"%char else c) = c
      /\ PyStr.replace_backslash s = s.
Proof.
  unfold PyStr.replace_backslash. cbn [PyStr.map_chars]. split.
  - intros H. injection H as H1 H2. now split.
  - intros [H1 H2]. now rewrite H1, H2.
Qed.

Lemma replace_backslash_idempotent (s : string) :
  PyStr.replace_backslash (PyStr.replace_backslash s)
  = PyStr.replace_backslash s.
Proof.
  unfold PyStr.replace_backslash.
  induction s as [| c s IH]; cbn [PyStr.map_chars]; [reflexivity | ].
  rewrite IH. f_equal.
  destruct (Ascii.eqb c "\") eqn:E; [reflexivity | now rewrite E].
Qed.

Lemma remove_dotdot_no_backslash (n : nat) :
  forall s, String.length s <= n ->
    PyStr.replace_backslash s = s ->
    PyStr.replace_backslash (PyStr.remove_dotdot s) = PyStr.remove_dotdot s.
Proof.
  induction n as [| n IH]; intros s Hlen Hs.
  - destruct s; [reflexivity | cbn in Hlen; lia].
  - destruct s as [| c [| d r]]; [reflexivity | exact Hs | ].
    rewrite remove_dotdot_two.
    apply replace_backslash_cons in Hs. destruct Hs as [Hc Hs].
    destruct (Ascii.eqb c "." && Ascii.eqb d ".").
    + apply IH; [cbn in *; lia | ].
      apply replace_backslash_cons in Hs. tauto.
    + apply replace_backslash_cons. split; [assumption | ].
      apply IH; [cbn in *; lia | assumption].
Qed.

Lemma lstrip_slash_no_backslash (s : string) :
  PyStr.replace_backslash s = s ->
  PyStr.replace_backslash (PyStr.lstrip_slash s) = PyStr.lstrip_slash s.
Proof.
  induction s as [| c s IH]; intros H; [reflexivity | ].
  cbn [PyStr.lstrip_slash].
  destruct (Ascii.eqb c "/"); [ | assumption ].
  apply IH. apply replace_backslash_cons in H. tauto.
Qed.

Lemma lstrip_slash_rooted (s : string) :
  PyStr.startswith s "ppt/" = true -> PyStr.lstrip_slash s = s.
Proof.
  unfold PyStr.startswith. destruct s as [| c r]; [reflexivity | ].
  change (String.prefix "ppt/" (String c r))
    with (if ascii_dec "p" c then String.prefix "pt/" r else false).
  destruct (ascii_dec "p" c) as [<- | _]; [reflexivity | discriminate].
Qed.

(** X18.  A candidate path is in normal form: normalising a normalised
    target gives it back, so what [_slide_audio_targets] returns holds
    no backslash and no "..", has no leading slash and is rooted under
    "ppt/". *)
Theorem normalize_target_idempotent (target : string) :
  normalize_target (normalize_target target) = normalize_target target
  /\ PyStr.replace_backslash (normalize_target target)
     = normalize_target target
  /\ PyStr.remove_dotdot (normalize_target target) = normalize_target target
  /\ PyStr.lstrip_slash (normalize_target target) = normalize_target target.
Proof.
  destruct (normalize_target_shape target) as (_ & Hclean & Hroot & _).
  assert (Hs : PyStr.replace_backslash
                 (PyStr.lstrip_slash
                    (PyStr.remove_dotdot (PyStr.replace_backslash target)))
               = PyStr.lstrip_slash
                   (PyStr.remove_dotdot (PyStr.replace_backslash target))).
  { apply lstrip_slash_no_backslash.
    apply (@remove_dotdot_no_backslash
             (String.length (PyStr.replace_backslash target)));
      [apply Nat.le_refl | apply replace_backslash_idempotent]. }
  assert (Hb : PyStr.replace_backslash (normalize_target target)
               = normalize_target target).
  { unfold normalize_target.
    destruct (negb (PyStr.startswith
                      (PyStr.lstrip_slash
                         (PyStr.remove_dotdot
                            (PyStr.replace_backslash target))) "ppt/"));
      [ | exact Hs ].
    unfold PyStr.replace_backslash in *. cbn [String.append PyStr.map_chars].
    rewrite Hs. reflexivity. }
  assert (Hd : PyStr.remove_dotdot (normalize_target target)
               = normalize_target target)
    by (now apply remove_dotdot_id).
  assert (Hl : PyStr.lstrip_slash (normalize_target target)
               = normalize_target target)
    by (now apply lstrip_slash_rooted).
  split; [ | auto ].
  unfold normalize_target at 1. rewrite Hb, Hd, Hl, Hroot. reflexivity.
Qed.
